(** * dev/generate_cli_docs.py: the CLI documentation generator

    A shallow embedding of the script that turns the help output of the
    CocoIndex command line into one markdown page, and the properties of
    its escaper, its parsers, its assembler and its writer.

    Python strings are lists of characters.  A character is a code point
    below 256 (an [ascii]); the character classes of Python ([str.isspace],
    the [\s] and [\w] of [re] on [str] patterns) are written out for that
    range. *)

From Stdlib Require Import Ascii String.
From Stdlib Require Import List NArith Arith Bool Lia.
From Stdlib Require Import Permutation Sorted.
Import ListNotations.
Local Open Scope list_scope.

(** ** Python's [str] *)
Module Py.

Definition str := list ascii.

(** A literal. *)
Definition L (s : string) : str := list_ascii_of_string s.

Definition code (c : ascii) : N := N_of_ascii c.

Definition nl : ascii := ascii_of_N 10.
Definition cr : ascii := ascii_of_N 13.

(** [str.isspace] on one character, which is also what [str.strip()] removes
    and what [\s] matches: tab, line feed, vertical tab, form feed, carriage
    return, the four separators 0x1c..0x1f, space, NEL and the no-break
    space. *)
Definition isspace (c : ascii) : bool :=
  match code c with
  | 9 | 10 | 11 | 12 | 13 | 28 | 29 | 30 | 31 | 32 | 133 | 160 => true
  | _ => false
  end%N.

(** [\w]: a character that is alphabetic, decimal, digit or numeric, or the
    underscore. *)
Definition isword (c : ascii) : bool :=
  let n := code c in
  (((48 <=? n) && (n <=? 57)) || ((65 <=? n) && (n <=? 90))
   || ((97 <=? n) && (n <=? 122)) || (n =? 95)
   || (n =? 170) || (n =? 178) || (n =? 179) || (n =? 181) || (n =? 185)
   || (n =? 186) || ((188 <=? n) && (n <=? 190))
   || ((192 <=? n) && (n <=? 214)) || ((216 <=? n) && (n <=? 246))
   || (248 <=? n))%N.

Fixpoint str_eqb (a b : str) : bool :=
  match a, b with
  | [], [] => true
  | x :: a', y :: b' => Ascii.eqb x y && str_eqb a' b'
  | _, _ => false
  end.

(** Truth value of a string: [if s:]. *)
Definition truthy (s : str) : bool :=
  match s with [] => false | _ :: _ => true end.

(** [s < t] on strings: lexicographic on code points. *)
Fixpoint str_ltb (a b : str) : bool :=
  match a, b with
  | _, [] => false
  | [], _ :: _ => true
  | x :: a', y :: b' =>
      if (code x <? code y)%N then true
      else if (code y <? code x)%N then false
      else str_ltb a' b'
  end.

Fixpoint lstrip (s : str) : str :=
  match s with
  | [] => []
  | c :: s' => if isspace c then lstrip s' else s
  end.

Definition rstrip (s : str) : str := rev (lstrip (rev s)).

(** [s.strip()] *)
Definition strip (s : str) : str := rstrip (lstrip s).

(** [s.startswith(p)] *)
Fixpoint startswith (p s : str) : bool :=
  match p, s with
  | [], _ => true
  | x :: p', y :: s' => Ascii.eqb x y && startswith p' s'
  | _ :: _, [] => false
  end.

(** The text after the prefix [p], when [s] starts with it. *)
Fixpoint strip_prefix (p s : str) : option str :=
  match p, s with
  | [], _ => Some s
  | x :: p', y :: s' => if Ascii.eqb x y then strip_prefix p' s' else None
  | _ :: _, [] => None
  end.

(** [s.split(sep)] for a separator of one character: never empty. *)
Fixpoint split (sep : ascii) (s : str) : list str :=
  match s with
  | [] => [[]]
  | c :: s' =>
      if Ascii.eqb c sep then [] :: split sep s'
      else match split sep s' with
           | l :: ls => (c :: l) :: ls
           | [] => [[c]]
           end
  end.

(** [sep.join(parts)] *)
Fixpoint join (sep : str) (parts : list str) : str :=
  match parts with
  | [] => []
  | p :: ps =>
      match ps with
      | [] => p
      | _ :: _ => p ++ sep ++ join sep ps
      end
  end.

(** [s.replace(old, new)] for [old] of one character. *)
Definition replace_char (old : ascii) (new : str) (s : str) : str :=
  flat_map (fun c => if Ascii.eqb c old then new else [c]) s.

(** The longest prefix whose characters satisfy [p], and the rest. *)
Fixpoint span (p : ascii -> bool) (s : str) : str * str :=
  match s with
  | [] => ([], [])
  | c :: s' =>
      if p c then let (a, b) := span p s' in (c :: a, b) else ([], s)
  end.

End Py.

(** ** Python's [re], for the patterns of the script

    None of the patterns matches the empty string, so the scan for the
    non-overlapping matches of a pattern is: find the leftmost position where
    the pattern matches, take the match, go on in the text after it. *)
Module Re.
Import Py.

Section Scan.
Context {M : Type}.

(** The pattern tried at the start of the text: the match and the text
    after it. *)
Variable match_here : str -> option (M * str).

(** [re.search]: the text before the leftmost match, the match, the text
    after it. *)
Fixpoint search (s : str) : option (str * M * str) :=
  match match_here s with
  | Some (m, rest) => Some ([], m, rest)
  | None =>
      match s with
      | [] => None
      | c :: s' =>
          match search s' with
          | Some (pre, m, rest) => Some (c :: pre, m, rest)
          | None => None
          end
      end
  end.

(** [re.finditer]: every match with the text between it and the one
    before, and the text after the last match.  A match takes at least one
    character, so [length s] rounds are enough (lemma [finditer_fuel_enough]). *)
Fixpoint finditer_fuel (fuel : nat) (s : str) : list (str * M) * str :=
  match fuel with
  | O => ([], s)
  | S fuel' =>
      match search s with
      | None => ([], s)
      | Some (pre, m, rest) =>
          let (ms, tl) := finditer_fuel fuel' rest in ((pre, m) :: ms, tl)
      end
  end.

Definition finditer (s : str) : list (str * M) * str :=
  finditer_fuel (length s) s.

(** [re.sub] with the replacement [repl] computed from the match. *)
Definition sub (repl : M -> str) (s : str) : str :=
  let (ms, tl) := finditer s in
  concat (map (fun pm => fst pm ++ repl (snd pm)) ms) ++ tl.
End Scan.

(** [[^>]+>] : one or more characters other than the closing bracket, then
    the bracket.  The class cannot take the bracket, so giving characters
    back never helps: the group is the whole run. *)
Definition bracketed (s : str) : option (str * str) :=
  match span (fun c => negb (Ascii.eqb c ">")) s with
  | ((_ :: _) as g, c :: rest) => if Ascii.eqb c ">" then Some (g, rest) else None
  | _ => None
  end.

(** [http://localhost:<([^>]+)>] at the start of the text: group 1 and the
    text after the match. *)
Definition match_localhost (s : str) : option (str * str) :=
  match strip_prefix (L "http://localhost:<") s with
  | Some r => bracketed r
  | None => None
  end.

(** [https://([^<\s]+)<([^>]+)>] at the start of the text: groups 1 and 2 and
    the text after the match.  Group 1 is the whole run of characters that
    are neither an opening bracket nor white space: a shorter one would be
    followed by a character of the run, not by the bracket. *)
Definition match_https (s : str) : option ((str * str) * str) :=
  match strip_prefix (L "https://") s with
  | Some r =>
      match span (fun c => negb (Ascii.eqb c "<") && negb (isspace c)) r with
      | ((_ :: _) as host, c :: r') =>
          if Ascii.eqb c "<" then
            match bracketed r' with
            | Some (g, rest) => Some ((host, g), rest)
            | None => None
            end
          else None
      | _ => None
      end
  | None => None
  end.

(** The inline code pattern, a backtick, characters other than a backtick, a
    backtick, at the start of the text: the whole match (group 1) and the text
    after it. *)
Definition match_code (s : str) : option (str * str) :=
  match s with
  | c :: r =>
      if Ascii.eqb c "`" then
        match span (fun c => negb (Ascii.eqb c "`")) r with
        | (body, c' :: rest) =>
            if Ascii.eqb c' "`" then Some ("`"%char :: body ++ ["`"%char], rest)
            else None
        | _ => None
        end
      else None
  | [] => None
  end.

(** [re.split] on the inline code pattern, whose one group is the whole
    match: text, code, text, ..., text. *)
Definition split_code (s : str) : list str :=
  let (ms, tl) := finditer match_code s in
  flat_map (fun pm => [fst pm; snd pm]) ms ++ [tl].

(** [\s{2,}] at the start of the text: the whole run of white space, when it
    has two characters or more. *)
Definition match_spaces2 (s : str) : option (str * str) :=
  match span isspace s with
  | ((_ :: _ :: _) as ws, rest) => Some (ws, rest)
  | _ => None
  end.

(** [re.match(r"^  (\w+)\s{2,}(.+)$", line)] on a line without line feed:
    groups 1 and 2.  The name is the whole run of word characters.  The white
    space is the whole run after it, unless the run reaches the end of the
    line: then [.+] needs its last character, and two must be left before
    it. *)
Definition match_command (line : str) : option (str * str) :=
  match strip_prefix (L "  ") line with
  | Some r =>
      match span isword r with
      | ((_ :: _) as name, r') =>
          match span isspace r' with
          | ((_ :: _ :: _) as ws, []) =>
              match rev ws with
              | c :: _ :: _ :: _ => Some (name, [c])
              | _ => None
              end
          | (_ :: _ :: _, (_ :: _) as text) => Some (name, text)
          | _ => None
          end
      | _ => None
      end
  | None => None
  end.

(** A non-empty literal at the start of the text. *)
Definition match_literal (old : str) (s : str) : option (unit * str) :=
  match old with
  | [] => None
  | _ :: _ =>
      match strip_prefix old s with
      | Some rest => Some (tt, rest)
      | None => None
      end
  end.

(** [s.replace(old, new)] for a non-empty [old]: its occurrences, left to
    right, without overlap. *)
Definition replace (old new : str) (s : str) : str :=
  sub (match_literal old) (fun _ => new) s.

End Re.

(** ** The script *)
Module CliDocs.
Import Py.

(** [clean_usage_line] *)
Definition clean_usage_line (usage : str) : str :=
  Re.replace (L "Usage: cli ") (L "Usage: cocoindex ") usage.

(** *** The escaper *)

(** The first [re.sub] of [escape_html_tags]. *)
Definition wrap_localhost (text : str) : str :=
  Re.sub Re.match_localhost
         (fun g => L "`http://localhost:<" ++ g ++ L ">`") text.

(** The second [re.sub] of [escape_html_tags]. *)
Definition wrap_https (text : str) : str :=
  Re.sub Re.match_https
         (fun g => L "`https://" ++ fst g ++ L "<" ++ snd g ++ L ">`") text.

(** [part.replace("<", "&lt;").replace(">", "&gt;")] *)
Definition escape_text (part : str) : str :=
  replace_char ">" (L "&gt;") (replace_char "<" (L "&lt;") part).

(** The loop over [enumerate(parts)], entered at index [i]. *)
Fixpoint escape_parts (i : nat) (parts : list str) : list str :=
  match parts with
  | [] => []
  | part :: ps =>
      (if Nat.even i then escape_text part else part)
        :: escape_parts (S i) ps
  end.

(** The split into text and code and the loop over the parts. *)
Definition escape_pass (text : str) : str :=
  let parts := Re.split_code text in
  concat (escape_parts 0 parts).

Definition escape_html_tags (text : str) : str :=
  let text := wrap_localhost text in
  let text := wrap_https text in
  escape_pass text.

(** *** The options table *)

(** The first loop of [format_options_section], entered at index [i] with
    the [options_start] found so far: [(options_start, commands_start)]. *)
Fixpoint find_headers (i : nat) (lines : list str) (options_start : option nat)
  : option nat * option nat :=
  match lines with
  | [] => (options_start, None)
  | line :: rest =>
      if str_eqb (strip line) (L "Options:") then
        find_headers (S i) rest (Some i)
      else if str_eqb (strip line) (L "Commands:") then
        (options_start, Some i)
      else find_headers (S i) rest options_start
  end.

(** [f"| `{current_option}` | {desc} |"] with [desc] escaped. *)
Definition option_row (current_option : str) (current_description : list str)
  : str :=
  let desc := strip (join (L " ") current_description) in
  let desc := escape_html_tags desc in
  L "| `" ++ current_option ++ L "` | " ++ desc ++ L " |".

Record parse_state := {
  current_option : option str;
  current_description : list str;
  formatted_options : list str
}.

(** [formatted_options] after the pending option, if any, is saved. *)
Definition save_option (st : parse_state) : list str :=
  match current_option st with
  | Some o => formatted_options st ++ [option_row o (current_description st)]
  | None => formatted_options st
  end.

(** One round of the loop over [options_lines]. *)
Definition parse_line (st : parse_state) (line : str) : parse_state :=
  if negb (truthy (strip line)) then st
  else if startswith (L "  -") line && negb (startswith (L "   ") line) then
    let formatted := save_option st in
    let content := skipn 2 line in
    match Re.search Re.match_spaces2 content with
    | Some (option_part, _, desc_part) =>
        {| current_option := Some (strip option_part);
           current_description :=
             if truthy (strip desc_part) then [strip desc_part] else [];
           formatted_options := formatted |}
    | None =>
        {| current_option := Some (strip content);
           current_description := [];
           formatted_options := formatted |}
    end
  else
    match current_option st with
    | Some _ =>
        if truthy (strip line) then
          {| current_option := current_option st;
             current_description := current_description st ++ [strip line];
             formatted_options := formatted_options st |}
        else st
    | None => st
    end.

Definition parse_options (options_lines : list str) : list str :=
  save_option
    (fold_left parse_line options_lines
       {| current_option := None;
          current_description := [];
          formatted_options := [] |}).

Definition format_options_section (help_text : str) : str :=
  let lines := split nl help_text in
  match find_headers 0 lines None with
  | (None, _) => []
  | (Some options_start, commands_start) =>
      let end_idx :=
        match commands_start with
        | Some ((S _) as c) => c
        | _ => List.length lines
        end in
      let options_lines := skipn (options_start + 1) (firstn end_idx lines) in
      let formatted_options := parse_options options_lines in
      match formatted_options with
      | _ :: _ =>
          let header :=
            L "| Option | Description |" ++ [nl]
              ++ L "|--------|-------------|" in
          header ++ [nl] ++ join [nl] formatted_options ++ [nl]
      | [] => []
      end
  end.

(** *** The commands table *)

(** The first loop of [format_commands_section], entered at index [i]. *)
Fixpoint find_commands (i : nat) (lines : list str) : option nat :=
  match lines with
  | [] => None
  | line :: rest =>
      if str_eqb (strip line) (L "Commands:") then Some i
      else find_commands (S i) rest
  end.

(** One round of the loop over [commands_lines]: the row the line adds. *)
Definition command_row (line : str) : list str :=
  if negb (truthy (strip line)) then []
  else
    match Re.match_command line with
    | Some (command, text) =>
        let description := strip text in
        let description :=
          if 80 <? List.length description
          then firstn 77 description ++ L "..."
          else description in
        [L "| `" ++ command ++ L "` | " ++ description ++ L " |"]
    | None => []
    end.

Definition format_commands_section (help_text : str) : str :=
  let lines := split nl help_text in
  match find_commands 0 lines with
  | None => []
  | Some commands_start =>
      let commands_lines := skipn (commands_start + 1) lines in
      let formatted_commands := flat_map command_row commands_lines in
      match formatted_commands with
      | _ :: _ =>
          let header :=
            L "| Command | Description |" ++ [nl]
              ++ L "|---------|-------------|" in
          header ++ [nl] ++ join [nl] formatted_commands ++ [nl]
      | [] => []
      end
  end.

(** *** The description *)

(** The loop of [extract_description]: [description_lines], given the flag
    [in_description] on entry. *)
Fixpoint description_lines (in_description : bool) (lines : list str)
  : list str :=
  match lines with
  | [] => []
  | line :: rest =>
      if startswith (L "Usage:") line then description_lines true rest
      else if str_eqb (strip line) (L "Options:")
              || str_eqb (strip line) (L "Commands:") then []
      else if in_description && truthy (strip line) then
        strip line :: description_lines in_description rest
      else description_lines in_description rest
  end.

Definition extract_description (help_text : str) : str :=
  let lines := split nl help_text in
  let description := join [nl; nl] (description_lines false lines) in
  escape_html_tags description.

(** *** The assembler *)

(** One record of the introspection: the dictionary with the keys
    [command] (of which the script reads [name]), [help], [parent] (read with
    a default, so it may be absent) and [usage].  Such a dictionary is not
    empty, so it is true in [if main_cli:]. *)
Record CommandHelp := {
  name : str;
  help : str;
  parent : option str;
  usage : str
}.

(** [doc.get] of the key [parent], the empty string when it is absent *)
Definition get_parent (doc : CommandHelp) : str :=
  match parent doc with Some p => p | None => [] end.

(** The first loop of [generate_command_docs], on the pair
    [(main_cli, subcommands)]. *)
Definition classify (acc : option CommandHelp * list CommandHelp)
  (doc : CommandHelp) : option CommandHelp * list CommandHelp :=
  if negb (truthy (get_parent doc)) then (Some doc, snd acc)
  else (fst acc, snd acc ++ [doc]).

(** [sorted(subcommands, key=lambda x: x["command"].name)]: the stable sort
    by name, which compares names with [<] only; here by insertion from the
    right, equal names staying in the order of the list. *)
Fixpoint insert_by_name (doc : CommandHelp) (l : list CommandHelp)
  : list CommandHelp :=
  match l with
  | [] => [doc]
  | e :: l' =>
      if str_ltb (name e) (name doc) then e :: insert_by_name doc l'
      else doc :: l
  end.

Definition sorted_by_name (l : list CommandHelp) : list CommandHelp :=
  fold_right insert_by_name [] l.

(** The lines the script appends for the main command. *)
Definition main_lines (main_cli : CommandHelp) : list str :=
  let help_text := help main_cli in
  let usage := clean_usage_line (usage main_cli) in
  let description := extract_description help_text in
  [L "# CLI Commands Reference"; [];
   L "This page contains the detailed help information for all CocoIndex CLI commands.";
   []]
  ++ (if truthy description
      then [L "## Overview"; []; description; []] else [])
  ++ [L "## Usage"; []; L "```sh"; usage; L "```"; []]
  ++ (let options_section := format_options_section help_text in
      if truthy options_section
      then [L "## Global Options"; []; options_section; []] else [])
  ++ (let commands_section := format_commands_section help_text in
      if truthy commands_section
      then [L "## Commands"; []; commands_section; []] else []).

(** The lines the script appends for one subcommand. *)
Definition subcommand_lines (doc : CommandHelp) : list str :=
  let command_name := name doc in
  let help_text := help doc in
  let usage := clean_usage_line (usage doc) in
  let description := extract_description help_text in
  [L "### `" ++ command_name ++ L "`"; []]
  ++ (if truthy description then [description; []] else [])
  ++ [L "**Usage:**"; []; L "```bash"; usage; L "```"; []]
  ++ (let options_section := format_options_section help_text in
      if truthy options_section
      then [L "**Options:**"; []; options_section; []] else [])
  ++ [L "---"; []].

(** [markdown_content], the list of lines, before the final join. *)
Definition markdown_lines (docs : list CommandHelp) : list str :=
  let (main_cli, subcommands) := fold_left classify docs (None, []) in
  (match main_cli with
   | Some m => main_lines m
   | None => []
   end)
  ++ [L "## Command Details"; []]
  ++ flat_map subcommand_lines (sorted_by_name subcommands).

Definition generate_command_docs (docs : list CommandHelp) : str :=
  join [nl] (markdown_lines docs).

(** *** The writer *)

(** What [main] prints, without the path and the line count. *)
Inductive message :=
| Generating
| Found (commands : nat)
| GeneratedAt
| GeneratedLines
| UpToDate.

(** The system the script runs on, for its line separator [os.linesep]:
    a line feed, or a carriage return and a line feed. *)
Inductive platform := Posix | Windows.

Definition linesep (os : platform) : str :=
  match os with
  | Posix => [nl]
  | Windows => [cr; nl]
  end.

(** What a read in text mode makes of the characters of a file (universal
    newlines, the default of [open]): a carriage return with the line feed
    after it, or alone, comes back as one line feed. *)
Fixpoint universal_newlines (s : str) : str :=
  match s with
  | [] => []
  | c :: s' =>
      if Ascii.eqb c cr then
        nl :: match s' with
              | [] => []
              | c' :: s'' =>
                  if Ascii.eqb c' nl then universal_newlines s''
                  else universal_newlines s'
              end
      else c :: universal_newlines s'
  end.

(** What a write in text mode puts in the file: every line feed becomes the
    line separator of the system. *)
Definition written (os : platform) (text : str) : str :=
  replace_char nl (linesep os) text.

(** The part of the world [main] touches: the system, the directory of the
    page, the characters of the page file when it exists, the number of times
    the file was opened for writing, and the console.  The characters are
    code points below 256, which UTF-8 encodes and decodes without loss. *)
Record world := {
  os : platform;
  docs_dir : bool;
  output_file : option str;
  writes : nat;
  console : list message
}.

Definition print (m : message) (w : world) : world :=
  {| os := os w; docs_dir := docs_dir w; output_file := output_file w;
     writes := writes w; console := console w ++ [m] |}.

(** [docs_dir.mkdir(parents=True, exist_ok=True)] *)
Definition mkdir (w : world) : world :=
  {| os := os w; docs_dir := true; output_file := output_file w;
     writes := writes w; console := console w |}.

(** [output_file.exists()], then [open(output_file, "r")] and [f.read()]:
    the text of the file as a read in text mode returns it. *)
Definition read_file (w : world) : option str :=
  match output_file w with
  | Some stored => Some (universal_newlines stored)
  | None => None
  end.

(** [open(output_file, "w")] and [f.write(text)] *)
Definition write_file (text : str) (w : world) : world :=
  {| os := os w; docs_dir := docs_dir w;
     output_file := Some (written (os w) text);
     writes := S (writes w); console := console w |}.

(** The body of [main], given the records of the introspection.  Nothing
    fails in this world, so the handler of exceptions is never entered. *)
Definition main (docs : list CommandHelp) (w : world) : world :=
  let w := print Generating w in
  let w := print (Found (List.length docs)) w in
  let markdown_content := generate_command_docs docs in
  let w := mkdir w in
  let content_changed :=
    match read_file w with
    | Some existing_content => negb (str_eqb existing_content markdown_content)
    | None => true
    end in
  if content_changed then
    let w := write_file markdown_content w in
    let w := print GeneratedAt w in
    print GeneratedLines w
  else print UpToDate w.

End CliDocs.

(** ** Notions the properties are stated with *)
Module Notions.
Import Py CliDocs.

(** The parts of odd index of a split. *)
Fixpoint odd_parts (parts : list str) : list str :=
  match parts with
  | _ :: c :: ps => c :: odd_parts ps
  | _ => []
  end.

(** The inline code spans of a text, backticks included, in order: the parts
    of odd index of the split [escape_html_tags] makes. *)
Definition code_spans (text : str) : list str :=
  odd_parts (Re.split_code text).

(** No backtick in the text. *)
Definition no_backtick (s : str) : bool :=
  forallb (fun c => negb (Ascii.eqb c "`")) s.

(** A scan for code spans put together again, the text between the spans
    escaped, and the scan with that text escaped. *)
Definition render (r : list (str * str) * str) : str :=
  concat (map (fun pm => escape_text (fst pm) ++ snd pm) (fst r))
    ++ escape_text (snd r).

Definition escaped (r : list (str * str) * str) : list (str * str) * str :=
  (map (fun pm => (escape_text (fst pm), snd pm)) (fst r),
   escape_text (snd r)).

(** A record without parent: [not parent] in [generate_command_docs]. *)
Definition is_root (doc : CommandHelp) : bool :=
  negb (truthy (get_parent doc)).

(** The last record without parent of a list. *)
Fixpoint last_root (docs : list CommandHelp) : option CommandHelp :=
  match docs with
  | [] => None
  | doc :: rest =>
      match last_root rest with
      | Some r => Some r
      | None => if is_root doc then Some doc else None
      end
  end.

(** The records with a parent, in the order of the list. *)
Definition subcommands_of (docs : list CommandHelp) : list CommandHelp :=
  filter (fun doc => negb (is_root doc)) docs.

(** [a.name <= b.name], that is, not [b.name < a.name]. *)
Definition name_le (a b : CommandHelp) : Prop :=
  str_ltb (name b) (name a) = false.

Definition details_heading : str := L "## Command Details".

End Notions.

(** ** Inputs of the examples *)
Module Examples.
Import Py CliDocs.

(** The help text of the example on option parsing. *)
Definition foo_help : str :=
  join [nl]
    [L "Usage: cli foo [OPTIONS]";
     [];
     L "Does the foo thing.";
     [];
     L "Options:";
     L "  -v, --verbose  Increase verbosity";
     L "  --out TEXT     Output path.";
     L "                  Defaults to stdout."].

(** A placeholder URL inside a code span, and a bare one. *)
Definition url_in_code : str := L "`http://localhost:<port>` already in code".
Definition bare_url : str := L "http://localhost:<port>".

(** A help text whose command list has an angle bracket in a description,
    and one with the same description on an option. *)
Definition run_commands_help : str :=
  join [nl] [L "Commands:"; L "  run  Run <thing>"].
Definition run_options_help : str :=
  join [nl] [L "Options:"; L "  --run  Run <thing>"].

(** Records of an introspection: two without parent and two subcommands. *)
Definition old_root : CommandHelp :=
  {| name := L "old"; help := L "Usage: old"; parent := None;
     usage := L "Usage: old [OPTIONS]" |}.
Definition root : CommandHelp :=
  {| name := L "cli"; help := L "Usage: cli"; parent := Some ([]);
     usage := L "Usage: cli [OPTIONS] COMMAND [ARGS]..." |}.
Definition sub_update : CommandHelp :=
  {| name := L "update"; help := foo_help; parent := Some (L "cli");
     usage := L "Usage: cli update [OPTIONS]" |}.
Definition sub_drop : CommandHelp :=
  {| name := L "drop"; help := L "Usage: cli drop"; parent := Some (L "cli");
     usage := L "Usage: cli drop [OPTIONS]" |}.

(** A world in which the page does not exist yet. *)
Definition fresh_world : world :=
  {| os := Posix; docs_dir := false; output_file := None; writes := 0;
     console := [] |}.

(** A main command whose usage line holds a carriage return. *)
Definition cr_root : CommandHelp :=
  {| name := L "cli"; help := L "Usage: cli"; parent := None;
     usage := L "Usage: cli [OPTIONS]" ++ [cr] ++ L "more" |}.

End Examples.

(** ** Notions for the further properties *)
Module Shapes.
Import Py CliDocs Notions.

(** The character [x] does not occur in the text. *)
Definition lacks (x : ascii) (s : str) : bool :=
  forallb (fun c => negb (Ascii.eqb c x)) s.

(** Neither angle bracket occurs in the text. *)
Definition no_angle (s : str) : bool :=
  forallb (fun c => negb (Ascii.eqb c "<") && negb (Ascii.eqb c ">")) s.

(** The parts of even index of a split. *)
Fixpoint even_parts (parts : list str) : list str :=
  match parts with
  | [] => []
  | t :: rest =>
      t :: match rest with
           | [] => []
           | _ :: ps => even_parts ps
           end
  end.

(** The text outside the inline code spans, in order: the parts of even
    index of the split [escape_html_tags] makes. *)
Definition text_parts (text : str) : list str :=
  even_parts (Re.split_code text).

(** A line that is blank for the loops: [not line.strip()]. *)
Definition blank (line : str) : bool := negb (truthy (strip line)).

(** A line that opens an option in the loop of [format_options_section]. *)
Definition is_option_line (line : str) : bool :=
  negb (blank line)
  && (startswith (L "  -") line && negb (startswith (L "   ") line)).

(** The two header lines of the options table. *)
Definition options_header : str :=
  L "| Option | Description |" ++ [nl] ++ L "|--------|-------------|".

(** The options table of the rows: nothing when there is none. *)
Definition options_table (rows : list str) : str :=
  match rows with
  | [] => []
  | _ :: _ => options_header ++ [nl] ++ join [nl] rows ++ [nl]
  end.

(** The two header lines of the commands table, and the table of the rows. *)
Definition commands_header : str :=
  L "| Command | Description |" ++ [nl] ++ L "|---------|-------------|".

Definition commands_table (rows : list str) : str :=
  match rows with
  | [] => []
  | _ :: _ => commands_header ++ [nl] ++ join [nl] rows ++ [nl]
  end.

(** A line that is one of the two section headers once stripped. *)
Definition is_header (line : str) : bool :=
  str_eqb (strip line) (L "Options:") || str_eqb (strip line) (L "Commands:").

(** The literal [clean_usage_line] looks for and the one it puts. *)
Definition usage_cli : str := L "Usage: cli ".
Definition usage_cocoindex : str := L "Usage: cocoindex ".

(** The records of a list that have the name [n], in order. *)
Definition named (n : str) (l : list CommandHelp) : list CommandHelp :=
  filter (fun doc => str_eqb (name doc) n) l.

End Shapes.

(** * Properties *)

Import Py.

(** ** Strings and scans *)
Module PyFacts.

Lemma span_spec (p : ascii -> bool) (s : str) :
  let (a, b) := span p s in
  s = a ++ b /\ forallb p a = true
  /\ match b with [] => True | c :: _ => p c = false end.
Proof.
  induction s as [|c s IH]; simpl.
  - auto.
  - destruct (p c) eqn:E.
    + destruct (span p s) as [a b]. destruct IH as (-> & Ha & Hb).
      simpl. rewrite E, Ha. auto.
    + simpl. auto.
Qed.

Lemma span_app (p : ascii -> bool) (a : str) (c : ascii) (rest : str) :
  forallb p a = true -> p c = false -> span p (a ++ c :: rest) = (a, c :: rest).
Proof.
  induction a as [|x a IH]; simpl; intros Ha Hc.
  - now rewrite Hc.
  - apply andb_true_iff in Ha as [Hx Ha]. now rewrite Hx, IH.
Qed.

Lemma span_all (p : ascii -> bool) (a : str) :
  forallb p a = true -> span p a = (a, []).
Proof.
  induction a as [|x a IH]; simpl; intros Ha; auto.
  apply andb_true_iff in Ha as [Hx Ha]. now rewrite Hx, IH.
Qed.

Lemma str_eqb_eq (a b : str) : str_eqb a b = true <-> a = b.
Proof.
  revert b. induction a as [|x a IH]; intros [|y b]; simpl; try easy.
  rewrite andb_true_iff, Ascii.eqb_eq, IH. split.
  - now intros [-> ->].
  - intros H. now injection H.
Qed.

End PyFacts.

(** The fuel of [finditer] is enough. *)
Module ScanFacts.
Import PyFacts.

Section Enough.
Context {M : Type}.
Variable match_here : str -> option (M * str).

(** A match takes at least one character. *)
Hypothesis consumes :
  forall s m rest,
    match_here s = Some (m, rest) -> List.length rest < List.length s.

Lemma search_shorter (s pre : str) (m : M) (rest : str) :
  Re.search match_here s = Some (pre, m, rest) ->
  List.length rest < List.length s.
Proof.
  revert pre. induction s as [|c s IH]; intros pre; cbn [Re.search].
  - destruct (match_here []) as [[m' r']|] eqn:E; [|discriminate].
    intros H. injection H as <- <- <-. exact (consumes _ _ _ E).
  - destruct (match_here (c :: s)) as [[m' r']|] eqn:E.
    + intros H. injection H as <- <- <-. exact (consumes _ _ _ E).
    + destruct (Re.search match_here s) as [[[p m'] r']|]; [|discriminate].
      intros H. injection H as <- <- <-.
      specialize (IH p eq_refl). simpl. lia.
Qed.

Lemma finditer_fuel_enough (n : nat) :
  forall (n' : nat) (s : str),
    List.length s <= n -> List.length s <= n' ->
    Re.finditer_fuel match_here n s = Re.finditer_fuel match_here n' s.
Proof.
  induction n as [|n IH]; intros n' s Hn Hn'.
  - destruct s; [|simpl in Hn; lia].
    destruct n'; cbn [Re.finditer_fuel]; [reflexivity|].
    destruct (Re.search match_here []) as [[[p m] r]|] eqn:E; [|reflexivity].
    apply search_shorter in E. simpl in E. lia.
  - cbn [Re.finditer_fuel].
    destruct (Re.search match_here s) as [[[p m] r]|] eqn:E.
    + pose proof (search_shorter _ _ _ _ E) as Hr.
      destruct n' as [|n']; [lia|].
      cbn [Re.finditer_fuel]. rewrite E.
      now rewrite (IH n' r) by lia.
    + destruct n'; cbn [Re.finditer_fuel]; [|rewrite E]; reflexivity.
Qed.

(** [finditer] is its own equation: no match, or the first match and the
    scan of the text after it. *)
Lemma finditer_eq (s : str) :
  Re.finditer match_here s =
  match Re.search match_here s with
  | None => ([], s)
  | Some (pre, m, rest) =>
      let (ms, tl) := Re.finditer match_here rest in ((pre, m) :: ms, tl)
  end.
Proof.
  unfold Re.finditer.
  destruct (Re.search match_here s) as [[[p m] r]|] eqn:E.
  - pose proof (search_shorter _ _ _ _ E) as Hr.
    destruct (List.length s) as [|n] eqn:El; [lia|].
    cbn [Re.finditer_fuel]. rewrite E.
    now rewrite (finditer_fuel_enough n (List.length r) r) by lia.
  - destruct (List.length s); cbn [Re.finditer_fuel]; [|rewrite E];
      reflexivity.
Qed.
End Enough.

Lemma span_length (p : ascii -> bool) (s : str) :
  List.length (snd (span p s)) <= List.length s.
Proof.
  pose proof (span_spec p s) as H. destruct (span p s) as [a b].
  destruct H as (-> & _). rewrite length_app. simpl. lia.
Qed.

Lemma strip_prefix_length (p s r : str) :
  strip_prefix p s = Some r -> List.length r + List.length p = List.length s.
Proof.
  revert s. induction p as [|x p IH]; intros [|y s]; simpl; intros H;
    try discriminate.
  - injection H as <-. reflexivity.
  - injection H as <-. simpl. lia.
  - destruct (Ascii.eqb x y); [|discriminate]. apply IH in H. lia.
Qed.

Lemma bracketed_consumes (s g rest : str) :
  Re.bracketed s = Some (g, rest) -> List.length rest < List.length s.
Proof.
  unfold Re.bracketed. pose proof (span_length (fun c => negb (c =? ">")%char) s).
  destruct (span _ s) as [[|x a] [|c b]]; try discriminate.
  destruct (c =? ">")%char; [|discriminate].
  intros E. injection E as <- <-. simpl in *. lia.
Qed.

Lemma match_localhost_consumes (s g rest : str) :
  Re.match_localhost s = Some (g, rest) -> List.length rest < List.length s.
Proof.
  unfold Re.match_localhost.
  destruct (strip_prefix _ s) as [r|] eqn:E; [|discriminate].
  apply strip_prefix_length in E. intros H%bracketed_consumes. lia.
Qed.

Lemma match_https_consumes (s : str) (g : str * str) (rest : str) :
  Re.match_https s = Some (g, rest) -> List.length rest < List.length s.
Proof.
  unfold Re.match_https.
  destruct (strip_prefix _ s) as [r|] eqn:E; [|discriminate].
  apply strip_prefix_length in E.
  pose proof (span_length (fun c => negb (c =? "<")%char && negb (isspace c)) r).
  destruct (span _ r) as [[|x a] [|c b]]; try discriminate.
  destruct (c =? "<")%char; [|discriminate].
  destruct (Re.bracketed b) as [[g' rest']|] eqn:Eb; [|discriminate].
  apply bracketed_consumes in Eb.
  intros H'. injection H' as <- <-. simpl in *. lia.
Qed.

Lemma match_code_consumes (s m rest : str) :
  Re.match_code s = Some (m, rest) -> List.length rest < List.length s.
Proof.
  destruct s as [|c s]; [discriminate|]. unfold Re.match_code.
  destruct (c =? "`")%char; [|discriminate].
  pose proof (span_length (fun c => negb (c =? "`")%char) s).
  destruct (span _ s) as [a [|c' b]]; try discriminate.
  destruct (c' =? "`")%char; [|discriminate].
  intros E. injection E as <- <-. simpl in *. lia.
Qed.

Lemma match_literal_consumes (old s : str) (m : unit) (rest : str) :
  Re.match_literal old s = Some (m, rest) -> List.length rest < List.length s.
Proof.
  unfold Re.match_literal. destruct old as [|x old]; [discriminate|].
  destruct (strip_prefix (x :: old) s) as [r|] eqn:E; [|discriminate].
  apply strip_prefix_length in E. intros H. injection H as _ <-.
  simpl in E. lia.
Qed.

End ScanFacts.

Module EscaperFacts.
Import PyFacts CliDocs Notions.

Local Abbreviation tick := (fun c : ascii => negb (Ascii.eqb c "`")).

(** A text that starts with another character than a backtick is no code
    span. *)
Lemma match_code_other (c : ascii) (s : str) :
  Ascii.eqb c "`" = false -> Re.match_code (c :: s) = None.
Proof. intros H. simpl. now rewrite H. Qed.

Lemma match_code_span (body rest : str) :
  no_backtick body = true ->
  Re.match_code ("`"%char :: body ++ "`"%char :: rest)
  = Some ("`"%char :: body ++ ["`"%char], rest).
Proof.
  intros H. unfold Re.match_code. rewrite Ascii.eqb_refl.
  rewrite (span_app tick body "`" rest H eq_refl). reflexivity.
Qed.

Lemma match_code_open (s : str) :
  Re.match_code ("`"%char :: s) = None <-> no_backtick s = true.
Proof.
  unfold Re.match_code. rewrite Ascii.eqb_refl.
  pose proof (span_spec tick s) as H.
  destruct (span tick s) as [a b]. destruct H as (-> & Ha & Hb).
  destruct b as [|c b].
  - rewrite app_nil_r. tauto.
  - apply negb_false_iff in Hb. rewrite Hb. split; [discriminate|].
    unfold no_backtick. rewrite forallb_app. simpl. rewrite Hb. simpl.
    rewrite andb_false_r. discriminate.
Qed.

(** The search for a code span walks over text without backtick. *)
Lemma search_code_skip (pre s : str) :
  no_backtick pre = true ->
  Re.search Re.match_code (pre ++ s)
  = match Re.search Re.match_code s with
    | Some (p, m, r) => Some (pre ++ p, m, r)
    | None => None
    end.
Proof.
  induction pre as [|c pre IH]; intros H.
  - simpl. now destruct (Re.search Re.match_code s) as [[[p m] r]|].
  - simpl in H. apply andb_true_iff in H as [Hc H].
    apply negb_true_iff in Hc.
    change ((c :: pre) ++ s) with (c :: (pre ++ s)).
    cbn [Re.search]. rewrite (match_code_other _ _ Hc), (IH H).
    now destruct (Re.search Re.match_code s) as [[[p m] r]|].
Qed.

Lemma search_code_found (pre body rest : str) :
  no_backtick pre = true -> no_backtick body = true ->
  Re.search Re.match_code (pre ++ "`"%char :: body ++ "`"%char :: rest)
  = Some (pre, "`"%char :: body ++ ["`"%char], rest).
Proof.
  intros Hp Hb. rewrite (search_code_skip _ _ Hp).
  cbn [Re.search]. rewrite (match_code_span _ _ Hb).
  now rewrite app_nil_r.
Qed.

(** What a found code span is. *)
Lemma search_code_inv (s pre m rest : str) :
  Re.search Re.match_code s = Some (pre, m, rest) ->
  no_backtick pre = true /\
  exists body, no_backtick body = true /\ m = "`"%char :: body ++ ["`"%char]
               /\ s = pre ++ m ++ rest.
Proof.
  revert pre. induction s as [|c s IH]; intros pre H.
  - discriminate.
  - cbn [Re.search] in H.
    destruct (Re.match_code (c :: s)) as [[m' r']|] eqn:E.
    + injection H as <- <- <-. split; [reflexivity|].
      unfold Re.match_code in E.
      destruct (Ascii.eqb c "`") eqn:Ec; [|discriminate].
      apply Ascii.eqb_eq in Ec as ->.
      pose proof (span_spec tick s) as Hs.
      destruct (span tick s) as [a b]. destruct Hs as (-> & Ha & Hb).
      destruct b as [|c' b]; [discriminate|].
      destruct (Ascii.eqb c' "`") eqn:Ec'; [|discriminate].
      apply Ascii.eqb_eq in Ec' as ->.
      injection E as <- <-. exists a. split; [exact Ha|]. split; [reflexivity|].
      simpl. now rewrite <- app_assoc.
    + destruct (Re.search Re.match_code s) as [[[p m'] r']|] eqn:Es;
        [|discriminate].
      injection H as <- <- <-.
      destruct (IH p eq_refl) as (Hp & body & Hb & -> & ->).
      assert (Hc : Ascii.eqb c "`" = false).
      { destruct (Ascii.eqb c "`") eqn:Ec; [|reflexivity].
        apply Ascii.eqb_eq in Ec as ->.
        apply match_code_open in E.
        unfold no_backtick in E. rewrite forallb_app in E. simpl in E.
        rewrite andb_false_r in E. discriminate. }
      split.
      * simpl. now rewrite Hc.
      * exists body. auto.
Qed.

(** [escape_text] works character by character and makes no backtick. *)
Lemma escape_text_app (a b : str) :
  escape_text (a ++ b) = escape_text a ++ escape_text b.
Proof.
  unfold escape_text, replace_char. now rewrite !flat_map_app.
Qed.

Lemma escape_text_cons (c : ascii) (s : str) :
  escape_text (c :: s) = escape_text [c] ++ escape_text s.
Proof. apply (escape_text_app [c] s). Qed.

Lemma escape_text_char (c : ascii) :
  escape_text [c] =
  if Ascii.eqb c "<" then L "&lt;"
  else if Ascii.eqb c ">" then L "&gt;" else [c].
Proof.
  unfold escape_text, replace_char. simpl.
  destruct (Ascii.eqb c "<") eqn:E1; simpl.
  - reflexivity.
  - destruct (Ascii.eqb c ">"); reflexivity.
Qed.

Lemma escape_text_no_backtick (s : str) :
  no_backtick s = true -> no_backtick (escape_text s) = true.
Proof.
  induction s as [|c s IH]; [reflexivity|].
  simpl. intros H. apply andb_true_iff in H as [Hc H].
  rewrite escape_text_cons. unfold no_backtick. rewrite forallb_app.
  fold (no_backtick (escape_text s)). rewrite (IH H), andb_true_r.
  rewrite escape_text_char.
  destruct (Ascii.eqb c "<"); [reflexivity|].
  destruct (Ascii.eqb c ">"); [reflexivity|].
  simpl. now rewrite Hc.
Qed.

(** Escaping makes no code span where there was none. *)
Lemma search_code_escape_none (s : str) :
  Re.search Re.match_code s = None ->
  Re.search Re.match_code (escape_text s) = None.
Proof.
  induction s as [|c s IH]; [reflexivity|].
  cbn [Re.search].
  destruct (Re.match_code (c :: s)) as [[m r]|] eqn:E; [discriminate|].
  destruct (Re.search Re.match_code s) as [[[p m] r]|] eqn:Es; [discriminate|].
  intros _. specialize (IH eq_refl).
  rewrite escape_text_cons, escape_text_char.
  destruct (Ascii.eqb c "<") eqn:E1;
    [now rewrite (search_code_skip (L "&lt;")), IH|].
  destruct (Ascii.eqb c ">") eqn:E2;
    [now rewrite (search_code_skip (L "&gt;")), IH|].
  change ([c] ++ escape_text s) with (c :: escape_text s).
  cbn [Re.search]. rewrite IH.
  destruct (Ascii.eqb c "`") eqn:Ec.
  - apply Ascii.eqb_eq in Ec as ->. apply match_code_open in E.
    apply escape_text_no_backtick in E. apply match_code_open in E.
    now rewrite E.
  - now rewrite (match_code_other _ _ Ec).
Qed.

Lemma escape_parts_shift (i : nat) (parts : list str) :
  escape_parts (S (S i)) parts = escape_parts i parts.
Proof.
  revert i. induction parts as [|p ps IH]; intros i; [reflexivity|].
  cbn [escape_parts]. rewrite (IH (S i)).
  now replace (Nat.even (S (S i))) with (Nat.even i) by reflexivity.
Qed.

Lemma escape_parts_render (ms : list (str * str)) (tl : str) :
  concat (escape_parts 0 (flat_map (fun pm => [fst pm; snd pm]) ms ++ [tl]))
  = render (ms, tl).
Proof.
  unfold render. cbn [fst snd].
  induction ms as [|[pre m] ms IH].
  - simpl. now rewrite app_nil_r.
  - cbn [flat_map fst snd app escape_parts Nat.even concat map].
    rewrite escape_parts_shift, IH. now rewrite <- !app_assoc.
Qed.

(** The scan of the rewritten text finds the code spans of the text, between
    the escaped parts, whatever the fuel above the lengths. *)
Lemma finditer_render (n : nat) :
  forall (s : str) (n' : nat),
    List.length s <= n ->
    List.length (render (Re.finditer_fuel Re.match_code n s)) <= n' ->
    Re.finditer_fuel Re.match_code n'
      (render (Re.finditer_fuel Re.match_code n s))
    = escaped (Re.finditer_fuel Re.match_code n s).
Proof.
  induction n as [|n IH]; intros s n' Hn Hn'.
  - destruct s; [|simpl in Hn; lia].
    destruct n'; reflexivity.
  - cbn [Re.finditer_fuel] in *.
    destruct (Re.search Re.match_code s) as [[[pre m] rest]|] eqn:Es.
    + destruct (search_code_inv _ _ _ _ Es) as (Hp & body & Hb & -> & ->).
      assert (Hr : List.length rest <= n).
      { rewrite !length_app in Hn. simpl in Hn. lia. }
      destruct (Re.finditer_fuel Re.match_code n rest) as [ms tl] eqn:Ef.
      unfold render in *. cbn [fst snd map concat] in *.
      destruct n' as [|n'].
      { rewrite !length_app in Hn'. simpl in Hn'. lia. }
      cbn [Re.finditer_fuel].
      rewrite <- !app_assoc. cbn [app].
      rewrite <- !app_assoc. cbn [app].
      rewrite (search_code_found _ _ _ (escape_text_no_backtick _ Hp) Hb).
      pose proof (IH rest n' Hr) as IH'. rewrite Ef in IH'.
      unfold render in IH'. cbn [fst snd] in IH'. rewrite IH'.
      * reflexivity.
      * rewrite <- !app_assoc in Hn'. cbn [app] in Hn'.
        rewrite !length_app in Hn'. simpl in Hn'.
        rewrite !length_app in Hn'. simpl in Hn'.
        rewrite length_app. lia.
    + unfold render. cbn [fst snd map concat app].
      destruct n'; [reflexivity|].
      cbn [Re.finditer_fuel]. now rewrite (search_code_escape_none _ Es).
Qed.

Lemma odd_parts_split (ms : list (str * str)) (tl : str) :
  odd_parts (flat_map (fun pm => [fst pm; snd pm]) ms ++ [tl]) = map snd ms.
Proof.
  induction ms as [|[pre m] ms IH]; [reflexivity|].
  cbn [flat_map app odd_parts fst snd map]. now rewrite IH.
Qed.

(** The split and escape pass keeps the code spans of the text it is given:
    as many, the same, in the same order. *)
Lemma escape_pass_code_spans (text : str) :
  code_spans (escape_pass text) = code_spans text.
Proof.
  unfold escape_pass. unfold code_spans at 2. unfold Re.split_code at 2. unfold Re.split_code at 1.
  unfold Re.finditer.
  destruct (Re.finditer_fuel Re.match_code (List.length text) text)
    as [ms tl] eqn:E.
  rewrite escape_parts_render, odd_parts_split.
  unfold code_spans, Re.split_code, Re.finditer.
  rewrite <- E, finditer_render by lia. rewrite E.
  unfold escaped. cbn [fst snd]. rewrite odd_parts_split, map_map.
  reflexivity.
Qed.

(** A text without a match of a pattern is left as it is by [re.sub]. *)
Lemma sub_none {M : Type} (match_here : str -> option (M * str))
  (repl : M -> str) (s : str) :
  Re.search match_here s = None -> Re.sub match_here repl s = s.
Proof.
  intros H. unfold Re.sub, Re.finditer.
  destruct (List.length s); cbn [Re.finditer_fuel]; [|rewrite H]; reflexivity.
Qed.

(** Escaped text has no bracket left, so escaping it again changes
    nothing: the entities are not escaped again. *)
Lemma escape_text_idem (s : str) : escape_text (escape_text s) = escape_text s.
Proof.
  induction s as [|c s IH]; [reflexivity|].
  rewrite escape_text_cons, escape_text_app, IH. f_equal.
  rewrite escape_text_char.
  destruct (Ascii.eqb c "<") eqn:E1; [reflexivity|].
  destruct (Ascii.eqb c ">") eqn:E2; [reflexivity|].
  now rewrite escape_text_char, E1, E2.
Qed.

Lemma escape_pass_render (text : str) :
  escape_pass text = render (Re.finditer Re.match_code text).
Proof.
  unfold escape_pass, Re.split_code.
  destruct (Re.finditer Re.match_code text) as [ms tl].
  apply escape_parts_render.
Qed.

(** The split and escape pass, applied to its own output, changes nothing. *)
Lemma escape_pass_idem (text : str) :
  escape_pass (escape_pass text) = escape_pass text.
Proof.
  rewrite (escape_pass_render text).
  rewrite (escape_pass_render (render _)).
  unfold Re.finditer at 1 2. rewrite finditer_render by lia.
  fold (Re.finditer Re.match_code text).
  destruct (Re.finditer Re.match_code text) as [ms tl].
  unfold render, escaped. cbn [fst snd].
  rewrite escape_text_idem, map_map. f_equal. f_equal.
  apply map_ext. intros [pre m]. cbn [fst snd]. now rewrite escape_text_idem.
Qed.

(** So a second pass of the escaper changes its output only through the two
    URL patterns. *)
Lemma escape_html_tags_idem_without_url (text : str) :
  Re.search Re.match_localhost (escape_html_tags text) = None ->
  Re.search Re.match_https (escape_html_tags text) = None ->
  escape_html_tags (escape_html_tags text) = escape_html_tags text.
Proof.
  intros H1 H2. unfold escape_html_tags at 1. unfold wrap_https, wrap_localhost.
  rewrite (sub_none _ _ _ H1), (sub_none _ _ _ H2).
  unfold escape_html_tags. apply escape_pass_idem.
Qed.

End EscaperFacts.

(** ** The order on names and the sort *)
Module SortFacts.
Import CliDocs Notions.

Lemma str_ltb_asym (a b : str) : str_ltb a b = true -> str_ltb b a = false.
Proof.
  revert b. induction a as [|x a IH]; intros [|y b]; simpl; try easy.
  destruct (N.ltb_spec (code x) (code y)), (N.ltb_spec (code y) (code x));
    try lia; auto.
Qed.

Lemma str_le_trans (a b c : str) :
  str_ltb b a = false -> str_ltb c b = false -> str_ltb c a = false.
Proof.
  revert b c. induction a as [|x a IH]; intros [|y b] [|z c]; simpl; try easy.
  destruct (N.ltb_spec (code y) (code x)), (N.ltb_spec (code x) (code y)),
    (N.ltb_spec (code z) (code y)), (N.ltb_spec (code y) (code z)),
    (N.ltb_spec (code z) (code x)), (N.ltb_spec (code x) (code z));
    try lia; try easy; eauto.
Qed.

Lemma name_le_trans (a b c : CommandHelp) :
  name_le a b -> name_le b c -> name_le a c.
Proof. unfold name_le. intros H1 H2. exact (str_le_trans _ _ _ H1 H2). Qed.

Lemma insert_by_name_perm (doc : CommandHelp) (l : list CommandHelp) :
  Permutation (insert_by_name doc l) (doc :: l).
Proof.
  induction l as [|e l IH]; simpl; [reflexivity|].
  destruct (str_ltb (name e) (name doc)); [|reflexivity].
  rewrite IH. apply perm_swap.
Qed.

Lemma insert_by_name_sorted (doc : CommandHelp) (l : list CommandHelp) :
  StronglySorted name_le l -> StronglySorted name_le (insert_by_name doc l).
Proof.
  induction 1 as [|e l Hs IH Hall]; simpl.
  - constructor; constructor.
  - destruct (str_ltb (name e) (name doc)) eqn:E.
    + constructor; [exact IH|].
      apply (Permutation_Forall (Permutation_sym (insert_by_name_perm doc l))).
      constructor; [|exact Hall].
      exact (str_ltb_asym _ _ E).
    + constructor; [now constructor|].
      constructor; [exact E|].
      apply (Forall_impl _ (fun x Hx => name_le_trans doc e x E Hx) Hall).
Qed.

Lemma sorted_by_name_perm (l : list CommandHelp) :
  Permutation (sorted_by_name l) l.
Proof.
  induction l as [|d l IH]; simpl; [reflexivity|].
  rewrite insert_by_name_perm. now constructor.
Qed.

Lemma sorted_by_name_sorted (l : list CommandHelp) :
  StronglySorted name_le (sorted_by_name l).
Proof.
  induction l as [|d l IH]; simpl; [constructor|].
  now apply insert_by_name_sorted.
Qed.

Lemma str_le_antisym (a b : str) :
  str_ltb a b = false -> str_ltb b a = false -> a = b.
Proof.
  revert b. induction a as [|x a IH]; intros [|y b]; simpl; try easy.
  destruct (N.ltb_spec (code x) (code y)), (N.ltb_spec (code y) (code x));
    try easy.
  intros Ha Hb. f_equal; [|now apply IH].
  assert (E : code x = code y) by lia. unfold code in E.
  rewrite <- (ascii_N_embedding x), <- (ascii_N_embedding y). now rewrite E.
Qed.

Lemma str_le_refl (a : str) : str_ltb a a = false.
Proof.
  induction a as [|x a IH]; simpl; [reflexivity|].
  now rewrite N.ltb_irrefl.
Qed.

(** Two lists in ascending order of name with the same names have them in
    the same order. *)
Lemma sorted_names_unique (l1 : list CommandHelp) :
  forall l2 : list CommandHelp,
    StronglySorted name_le l1 -> StronglySorted name_le l2 ->
    Permutation (map name l1) (map name l2) ->
    map name l1 = map name l2.
Proof.
  induction l1 as [|a l1 IH]; intros l2 H1 H2 P.
  - apply Permutation_nil in P. now rewrite P.
  - destruct l2 as [|b l2].
    { apply Permutation_sym, Permutation_nil in P. discriminate. }
    apply StronglySorted_inv in H1 as [H1 Ha].
    apply StronglySorted_inv in H2 as [H2 Hb].
    assert (Le : forall (c : CommandHelp) l n,
               Forall (name_le c) l -> In n (map name (c :: l)) ->
               str_ltb n (name c) = false).
    { intros c l n Hc [<-|Hn]; [apply str_le_refl|].
      apply in_map_iff in Hn as (d & <- & Hd).
      rewrite Forall_forall in Hc. exact (Hc d Hd). }
    assert (E : name a = name b).
    { apply str_le_antisym.
      - apply (Le b l2 (name a) Hb).
        apply (Permutation_in _ P). now left.
      - apply (Le a l1 (name b) Ha).
        apply (Permutation_in _ (Permutation_sym P)). now left. }
    cbn [map] in *. rewrite E in *. f_equal.
    apply IH; [assumption|assumption|].
    exact (Permutation_cons_inv P).
Qed.

Lemma subcommands_of_perm (docs docs' : list CommandHelp) :
  Permutation docs docs' ->
  Permutation (subcommands_of docs) (subcommands_of docs').
Proof.
  unfold subcommands_of. induction 1 as [|x l l' _ IH|x y l|l l' l'' _ IH1 _ IH2];
    cbn [filter].
  - constructor.
  - destruct (negb (is_root x)); [now constructor|exact IH].
  - destruct (negb (is_root x)), (negb (is_root y));
      try reflexivity. apply perm_swap.
  - now transitivity (filter (fun doc => negb (is_root doc)) l').
Qed.

(** The order of the names of the subsections does not depend on the order
    of the records. *)
Lemma names_order_independent (docs docs' : list CommandHelp) :
  Permutation docs docs' ->
  map name (sorted_by_name (subcommands_of docs'))
  = map name (sorted_by_name (subcommands_of docs)).
Proof.
  intros P. apply sorted_names_unique; try apply sorted_by_name_sorted.
  apply Permutation_map. rewrite !sorted_by_name_perm.
  apply Permutation_sym. now apply subcommands_of_perm.
Qed.

End SortFacts.

(** ** The assembler *)
Module AssemblerFacts.
Import CliDocs Notions.

(** The first loop keeps the last record without parent and the records with
    a parent. *)
Lemma classify_fold (docs : list CommandHelp) :
  forall (main_cli : option CommandHelp) (subcommands : list CommandHelp),
    fold_left classify docs (main_cli, subcommands)
    = (match last_root docs with Some r => Some r | None => main_cli end,
       subcommands ++ subcommands_of docs).
Proof.
  induction docs as [|doc docs IH]; intros m subs; cbn [fold_left].
  - simpl. now rewrite app_nil_r.
  - unfold classify at 2. cbn [fst snd last_root subcommands_of filter].
    fold (is_root doc). fold (subcommands_of docs).
    destruct (is_root doc) eqn:E; rewrite IH; cbn [negb];
      destruct (last_root docs); try reflexivity.
    + now rewrite <- app_assoc.
    + now rewrite <- app_assoc.
Qed.

Lemma markdown_lines_eq (docs : list CommandHelp) :
  markdown_lines docs
  = match last_root docs with Some m => main_lines m | None => [] end
    ++ [details_heading; []]
    ++ flat_map subcommand_lines (sorted_by_name (subcommands_of docs)).
Proof.
  unfold markdown_lines. rewrite classify_fold. cbn [app].
  now destruct (last_root docs).
Qed.

Lemma last_root_app (before after : list CommandHelp) (r : CommandHelp) :
  is_root r = true -> forallb (fun doc => negb (is_root doc)) after = true ->
  last_root (before ++ r :: after) = Some r.
Proof.
  intros Hr Ha.
  assert (Hn : last_root after = None).
  { clear Hr. induction after as [|d after IH]; [reflexivity|].
    cbn [forallb] in Ha. apply andb_true_iff in Ha as [Hd Ha].
    apply negb_true_iff in Hd. cbn [last_root]. now rewrite (IH Ha), Hd. }
  induction before as [|d before IH]; cbn [app last_root].
  - now rewrite Hn, Hr.
  - now rewrite IH.
Qed.

Lemma subcommands_of_app (before after : list CommandHelp) (r : CommandHelp) :
  is_root r = true ->
  subcommands_of (before ++ r :: after) = subcommands_of (before ++ after).
Proof.
  intros Hr. unfold subcommands_of. rewrite !filter_app. cbn [filter].
  now rewrite Hr.
Qed.

Lemma join_cons (sep p : str) (q : str) (ps : list str) :
  join sep (p :: q :: ps) = p ++ sep ++ join sep (q :: ps).
Proof. reflexivity. Qed.

Lemma join_app (sep : str) (a : list str) (q : str) (b : list str) :
  join sep (a ++ q :: b)
  = match a with
    | [] => []
    | _ :: _ => join sep a ++ sep
    end ++ join sep (q :: b).
Proof.
  induction a as [|p a IH]; [reflexivity|].
  destruct a as [|p' a].
  - cbn [app]. rewrite join_cons. cbn [join]. now rewrite <- app_assoc.
  - change ((p :: p' :: a) ++ q :: b) with (p :: (p' :: a) ++ q :: b).
    cbn [app] in *. rewrite !join_cons, IH. now rewrite <- !app_assoc.
Qed.

Lemma find_headers_none (lines : list str) :
  Forall (fun line => strip line <> L "Options:") lines ->
  forall i, fst (find_headers i lines None) = None.
Proof.
  induction 1 as [|line lines Hl _ IH]; intros i; cbn [find_headers].
  - reflexivity.
  - destruct (str_eqb (strip line) (L "Options:")) eqn:E.
    + apply PyFacts.str_eqb_eq in E. contradiction.
    + destruct (str_eqb (strip line) (L "Commands:")); [reflexivity|apply IH].
Qed.

Lemma find_commands_none (lines : list str) :
  Forall (fun line => strip line <> L "Commands:") lines ->
  forall i, find_commands i lines = None.
Proof.
  induction 1 as [|line lines Hl _ IH]; intros i; cbn [find_commands].
  - reflexivity.
  - destruct (str_eqb (strip line) (L "Commands:")) eqn:E.
    + apply PyFacts.str_eqb_eq in E. contradiction.
    + apply IH.
Qed.

(** Every row of the options table is made by [option_row], which escapes
    the description. *)
Lemma parse_options_rows (options_lines : list str) :
  Forall (fun row => exists o ds, row = option_row o ds)
         (parse_options options_lines).
Proof.
  assert (Save : forall st,
             Forall (fun row => exists o ds, row = option_row o ds)
                    (formatted_options st) ->
             Forall (fun row => exists o ds, row = option_row o ds)
                    (save_option st)).
  { intros st H. unfold save_option. destruct (current_option st) as [o|];
      [|exact H].
    apply Forall_app. split; [exact H|]. constructor; [|constructor].
    now exists o, (current_description st). }
  unfold parse_options. apply Save.
  set (st0 := {| current_option := None; current_description := [];
                 formatted_options := [] |}).
  assert (H0 : Forall (fun row => exists o ds, row = option_row o ds)
                      (formatted_options st0)) by constructor.
  revert H0. generalize st0.
  induction options_lines as [|line lines IH]; intros st H; [exact H|].
  cbn [fold_left]. apply IH. unfold parse_line.
  destruct (negb (truthy (strip line))); [exact H|].
  destruct (startswith (L "  -") line && negb (startswith (L "   ") line)).
  - destruct (Re.search Re.match_spaces2 (skipn 2 line)) as [[[a m] b]|];
      cbn [formatted_options]; now apply Save.
  - destruct (current_option st); [|exact H].
    destruct (truthy (strip line)); exact H.
Qed.

End AssemblerFacts.

(** ** The page file *)
Module WriterFacts.
Import PyFacts CliDocs Shapes.

(** A text without carriage return is read as it is. *)
Lemma universal_newlines_id (s : str) :
  lacks cr s = true -> universal_newlines s = s.
Proof.
  induction s as [|c s IH]; [reflexivity|].
  cbn [lacks forallb universal_newlines]. intros H.
  apply andb_true_iff in H as [Hc H]. apply negb_true_iff in Hc.
  fold (lacks cr s) in H. now rewrite Hc, (IH H).
Qed.

(** A text without carriage return, once written, is read back as it was,
    on either system. *)
Lemma read_back (sys : platform) (s : str) :
  lacks cr s = true -> universal_newlines (written sys s) = s.
Proof.
  unfold written, replace_char. destruct sys; cbn [linesep];
    (induction s as [|c s IH]; [reflexivity|]);
    cbn [lacks forallb flat_map]; intros H;
    apply andb_true_iff in H as [Hc H]; apply negb_true_iff in Hc;
    fold (lacks cr s) in H; specialize (IH H);
    (destruct (Ascii.eqb c nl) eqn:En;
     [apply Ascii.eqb_eq in En; subst c
     |cbn [app universal_newlines]; now rewrite Hc, IH]).
  - cbn [app universal_newlines].
    change (Ascii.eqb nl cr) with false. cbv iota. now rewrite IH.
  - cbn [app universal_newlines].
    change (Ascii.eqb cr cr) with true. change (Ascii.eqb nl nl) with true.
    cbv iota. now rewrite IH.
Qed.

(** [main] without its console: the page file and the count of writes. *)
Lemma main_up_to_date (docs : list CommandHelp) (w : world) :
  read_file w = Some (generate_command_docs docs) ->
  output_file (main docs w) = output_file w
  /\ writes (main docs w) = writes w
  /\ console (main docs w)
     = console w ++ [Generating; Found (List.length docs); UpToDate].
Proof.
  intros H. unfold main.
  change (read_file (mkdir (print (Found (List.length docs))
                              (print Generating w))))
    with (read_file w).
  rewrite H, (proj2 (str_eqb_eq _ _) eq_refl). cbn.
  now rewrite <- !app_assoc.
Qed.

Lemma main_changed (docs : list CommandHelp) (w : world) :
  read_file w <> Some (generate_command_docs docs) ->
  output_file (main docs w)
  = Some (written (os w) (generate_command_docs docs))
  /\ writes (main docs w) = S (writes w).
Proof.
  intros H. unfold main.
  change (read_file (mkdir (print (Found (List.length docs))
                              (print Generating w))))
    with (read_file w).
  destruct (read_file w) as [existing|] eqn:E.
  - destruct (str_eqb existing (generate_command_docs docs)) eqn:Eq.
    + apply str_eqb_eq in Eq. now subst.
    + cbn. now split.
  - cbn. now split.
Qed.

End WriterFacts.

(** * The claims *)

Import CliDocs Notions Examples.

(** C1, as amended.  For every text in which neither URL pattern of the
    escaper matches, the inline code spans of the output of
    [escape_html_tags] are those of the input: as many, each one unchanged
    character for character, in the same order. *)
Theorem escape_html_tags_keeps_code_spans (text : str) :
  Re.search Re.match_localhost text = None ->
  Re.search Re.match_https text = None ->
  code_spans (escape_html_tags text) = code_spans text.
Proof.
  intros H1 H2. unfold escape_html_tags, wrap_https, wrap_localhost.
  rewrite (EscaperFacts.sub_none _ _ _ H1), (EscaperFacts.sub_none _ _ _ H2).
  apply EscaperFacts.escape_pass_code_spans.
Qed.

Lemma escape_html_tags_keeps_code_spans_witness :
  code_spans (escape_html_tags (L "run `foo <x>` with <y> or `z`"))
  = code_spans (L "run `foo <x>` with <y> or `z`").
Proof.
  apply (escape_html_tags_keeps_code_spans
           (L "run `foo <x>` with <y> or `z`")); reflexivity.
Defined.

(** C1, as stated, fails: a bare placeholder URL has no code span and its
    escaped form has one. *)
Lemma escape_html_tags_adds_code_span :
  code_spans (escape_html_tags (L "http://localhost:<port>"))
  <> code_spans (L "http://localhost:<port>").
Proof. vm_compute. discriminate. Qed.

(** C2.  The placeholder URL that is already in a code span is wrapped a
    second time and its brackets are escaped; the bare one is wrapped. *)
Theorem escape_html_tags_on_localhost_urls :
  escape_html_tags url_in_code
  = L "``http://localhost:&lt;port&gt;`` already in code"
  /\ escape_html_tags url_in_code <> url_in_code
  /\ escape_html_tags bare_url = L "`http://localhost:<port>`".
Proof. repeat split; vm_compute; try reflexivity; discriminate. Qed.

(** C3.  A second pass changes the output of the first one on a bare
    placeholder URL. *)
Theorem escape_html_tags_twice_on_bare_url :
  escape_html_tags bare_url = L "`http://localhost:<port>`"
  /\ escape_html_tags (escape_html_tags bare_url)
     = L "``http://localhost:&lt;port&gt;``"
  /\ escape_html_tags (escape_html_tags bare_url) <> escape_html_tags bare_url.
Proof. repeat split; vm_compute; try reflexivity; discriminate. Qed.

(** C4.  The row of the commands table carries the description as it is in
    the help text, brackets included; the row of the options table carries
    the same description escaped. *)
Theorem commands_table_is_not_escaped :
  format_commands_section run_commands_help
  = join [nl] [L "| Command | Description |";
               L "|---------|-------------|";
               L "| `run` | Run <thing> |"; []]
  /\ format_options_section run_options_help
     = join [nl] [L "| Option | Description |";
                  L "|--------|-------------|";
                  L "| `--run` | Run &lt;thing&gt; |"; []]
  /\ escape_html_tags (L "Run <thing>") = L "Run &lt;thing&gt;".
Proof. repeat split; vm_compute; reflexivity. Qed.

(** C5.  The help text of the example has the description of the example
    and an options table of its two rows, in the order of the text, the
    second one with its continuation line joined by one space. *)
Theorem foo_help_parses_as_in_the_example :
  extract_description foo_help = L "Does the foo thing."
  /\ parse_options (skipn 5 (split nl foo_help))
     = [L "| `-v, --verbose` | Increase verbosity |";
        L "| `--out TEXT` | Output path. Defaults to stdout. |"]
  /\ format_options_section foo_help
     = join [nl] [L "| Option | Description |";
                  L "|--------|-------------|";
                  L "| `-v, --verbose` | Increase verbosity |";
                  L "| `--out TEXT` | Output path. Defaults to stdout. |";
                  []].
Proof. repeat split; vm_compute; reflexivity. Qed.

(** C6.  Whatever the order of the records, the subsections of the page
    below the heading of the command details are those of the records with a
    parent, one for each, in ascending order of command name; and the order
    of the names is the same for every order of the records. *)
Theorem subsections_in_name_order (docs : list CommandHelp) :
  generate_command_docs docs
  = join [nl]
      (match last_root docs with Some m => main_lines m | None => [] end
       ++ [details_heading; []]
       ++ flat_map subcommand_lines (sorted_by_name (subcommands_of docs)))
  /\ Permutation (sorted_by_name (subcommands_of docs)) (subcommands_of docs)
  /\ StronglySorted name_le (sorted_by_name (subcommands_of docs))
  /\ (forall docs' : list CommandHelp,
        Permutation docs docs' ->
        map name (sorted_by_name (subcommands_of docs'))
        = map name (sorted_by_name (subcommands_of docs))).
Proof.
  split; [|split; [|split]].
  - unfold generate_command_docs. now rewrite AssemblerFacts.markdown_lines_eq.
  - apply SortFacts.sorted_by_name_perm.
  - apply SortFacts.sorted_by_name_sorted.
  - intros docs'. apply SortFacts.names_order_independent.
Qed.

Lemma subsections_in_name_order_witness :
  map name (sorted_by_name (subcommands_of [sub_drop; root; sub_update]))
  = map name (sorted_by_name (subcommands_of [sub_update; root; sub_drop])).
Proof.
  apply (proj2 (proj2 (proj2 (subsections_in_name_order
                                [sub_update; root; sub_drop])))).
  apply (Permutation_rev [sub_update; root; sub_drop]).
Defined.

(** C7.  A help text without a line that is, once stripped, the header of
    the options has an empty options table, and one without the header of
    the commands has an empty commands table. *)
Theorem no_header_no_table (help_text : str) :
  (Forall (fun line => strip line <> L "Options:") (split nl help_text) ->
   format_options_section help_text = [])
  /\
  (Forall (fun line => strip line <> L "Commands:") (split nl help_text) ->
   format_commands_section help_text = []).
Proof.
  split; intros H.
  - unfold format_options_section.
    pose proof (AssemblerFacts.find_headers_none _ H 0) as E.
    destruct (find_headers 0 (split nl help_text) None) as [o c].
    simpl in E. now rewrite E.
  - unfold format_commands_section.
    now rewrite (AssemblerFacts.find_commands_none _ H 0).
Qed.

Lemma no_header_no_table_witness :
  format_options_section (L "Usage: cli drop") = []
  /\ format_commands_section (L "Usage: cli drop") = [].
Proof.
  split.
  - apply (proj1 (no_header_no_table (L "Usage: cli drop"))).
    vm_compute. repeat constructor. discriminate.
  - apply (proj2 (no_header_no_table (L "Usage: cli drop"))).
    vm_compute. repeat constructor. discriminate.
Defined.

(** C8, as amended.  [main] compares the assembled page with the text that
    a read in text mode returns for the file that exists, and writes only
    when they differ: when the text read is the page, the file is left as it
    is, without a write; in any other state there is one write of the page.
    When the page has no carriage return, a file whose content is the page
    is left as it is, without a write, and a second run on the same records
    reports that the page is up to date and writes nothing. *)
Theorem main_writes_only_on_difference (docs : list CommandHelp) (w : world) :
  (read_file w = Some (generate_command_docs docs) ->
   output_file (main docs w) = output_file w
   /\ writes (main docs w) = writes w)
  /\
  (read_file w <> Some (generate_command_docs docs) ->
   output_file (main docs w)
   = Some (written (os w) (generate_command_docs docs))
   /\ writes (main docs w) = S (writes w))
  /\
  (Shapes.lacks cr (generate_command_docs docs) = true ->
   (output_file w = Some (generate_command_docs docs) ->
    output_file (main docs w) = output_file w
    /\ writes (main docs w) = writes w)
   /\ output_file (main docs (main docs w)) = output_file (main docs w)
   /\ writes (main docs (main docs w)) = writes (main docs w)
   /\ console (main docs (main docs w))
      = console (main docs w)
          ++ [Generating; Found (List.length docs); UpToDate]).
Proof.
  split; [|split].
  - intros H. destruct (WriterFacts.main_up_to_date docs w H) as (H1 & H2 & _).
    now split.
  - apply WriterFacts.main_changed.
  - intros Hcr. split.
    + intros H.
      destruct (WriterFacts.main_up_to_date docs w) as (H1 & H2 & _);
        [|now split].
      unfold read_file. rewrite H.
      now rewrite (WriterFacts.universal_newlines_id _ Hcr).
    + assert (R : read_file (main docs w) = Some (generate_command_docs docs)).
      { destruct (read_file w) as [existing|] eqn:E.
        - destruct (list_eq_dec ascii_dec existing (generate_command_docs docs))
            as [->|Hne].
          + destruct (WriterFacts.main_up_to_date docs w E) as (H1 & _).
            unfold read_file in *. now rewrite H1.
          + destruct (WriterFacts.main_changed docs w) as (H1 & _).
            { rewrite E. intros [=]. contradiction. }
            unfold read_file. rewrite H1.
            now rewrite (WriterFacts.read_back _ _ Hcr).
        - destruct (WriterFacts.main_changed docs w) as (H1 & _).
          { rewrite E. discriminate. }
          unfold read_file. rewrite H1.
          now rewrite (WriterFacts.read_back _ _ Hcr). }
      exact (WriterFacts.main_up_to_date docs (main docs w) R).
Qed.

Lemma main_writes_only_on_difference_witness :
  (output_file (main [root; sub_drop] (main [root; sub_drop] fresh_world))
   = output_file (main [root; sub_drop] fresh_world)
   /\ writes (main [root; sub_drop] (main [root; sub_drop] fresh_world))
      = writes (main [root; sub_drop] fresh_world))
  /\ writes (main [root; sub_drop] fresh_world) = 1
  /\ writes (main [root; sub_drop]
               (write_file (generate_command_docs [root; sub_drop])
                  fresh_world)) = 1.
Proof.
  split; [|split].
  - destruct (proj2 (proj2 (main_writes_only_on_difference
                              [root; sub_drop] fresh_world)) eq_refl)
      as (_ & H1 & H2 & _).
    now split.
  - apply (proj1 (proj2 (main_writes_only_on_difference
                           [root; sub_drop] fresh_world))).
    discriminate.
  - apply (proj1 (main_writes_only_on_difference [root; sub_drop]
                    (write_file (generate_command_docs [root; sub_drop])
                       fresh_world))).
    reflexivity.
Defined.

(** C8, as stated, fails: after a first run the file holds the page of
    [cr_root], character for character, and the second run writes it again,
    because the carriage return of the page is read back as a line feed. *)
Lemma main_writes_again_with_carriage_return :
  output_file (main [cr_root] fresh_world)
  = Some (generate_command_docs [cr_root])
  /\ writes (main [cr_root] fresh_world) = 1
  /\ writes (main [cr_root] (main [cr_root] fresh_world)) = 2.
Proof. repeat split; vm_compute; reflexivity. Qed.

(** C9.  When several records have no parent, the last of them is the main
    command of the page; the earlier ones leave no trace: the page is the one
    of the last of them and of the records with a parent. *)
Theorem last_root_is_the_main_command
  (before after : list CommandHelp) (r : CommandHelp) :
  is_root r = true ->
  forallb (fun doc => negb (is_root doc)) after = true ->
  generate_command_docs (before ++ r :: after)
  = join [nl]
      (main_lines r ++ [details_heading; []]
       ++ flat_map subcommand_lines
            (sorted_by_name (subcommands_of (before ++ after))))
  /\ generate_command_docs (before ++ r :: after)
     = generate_command_docs (r :: subcommands_of (before ++ after)).
Proof.
  intros Hr Ha.
  assert (E : forall l, subcommands_of (subcommands_of l) = subcommands_of l).
  { intros l. unfold subcommands_of. induction l as [|d l IH]; [reflexivity|].
    cbn [filter]. destruct (negb (is_root d)) eqn:Ed; [|exact IH].
    cbn [filter]. now rewrite Ed, IH. }
  unfold generate_command_docs. rewrite !AssemblerFacts.markdown_lines_eq.
  rewrite (AssemblerFacts.last_root_app _ _ _ Hr Ha).
  rewrite (AssemblerFacts.subcommands_of_app _ _ _ Hr).
  split; [reflexivity|].
  pose proof (AssemblerFacts.last_root_app
                [] (subcommands_of (before ++ after)) r Hr) as Hl.
  pose proof (AssemblerFacts.subcommands_of_app
                [] (subcommands_of (before ++ after)) r Hr) as Hs.
  cbn [app] in Hl, Hs. rewrite Hl, Hs, E; [reflexivity|].
  unfold subcommands_of. apply forallb_forall. intros x Hx.
  now apply filter_In in Hx.
Qed.

Lemma last_root_is_the_main_command_witness :
  generate_command_docs ([old_root; sub_update] ++ root :: [sub_drop])
  = generate_command_docs (root :: [sub_update; sub_drop]).
Proof.
  apply (proj2 (last_root_is_the_main_command
                  [old_root; sub_update] [sub_drop] root eq_refl eq_refl)).
Defined.

(** C10.  The page always has the heading of the command details, as a line
    of its own, and is never empty; without any record it is that heading
    alone. *)
Theorem details_heading_always (docs : list CommandHelp) :
  In details_heading (markdown_lines docs)
  /\ (exists a b : str,
        generate_command_docs docs = a ++ details_heading ++ nl :: b
        /\ (a = [] \/ exists a', a = a' ++ [nl]))
  /\ generate_command_docs docs <> []
  /\ generate_command_docs [] = details_heading ++ [nl].
Proof.
  assert (H : exists a b : str,
             generate_command_docs docs = a ++ details_heading ++ nl :: b
             /\ (a = [] \/ exists a', a = a' ++ [nl])).
  { unfold generate_command_docs. rewrite AssemblerFacts.markdown_lines_eq.
    cbn [app]. rewrite AssemblerFacts.join_app.
    set (post := flat_map subcommand_lines _).
    rewrite AssemblerFacts.join_cons.
    destruct (match last_root docs with
              | Some m => main_lines m
              | None => []
              end) as [|p ps].
    - exists [], (join [nl] ([] :: post)). split; [reflexivity|now left].
    - exists (join [nl] (p :: ps) ++ [nl]), (join [nl] ([] :: post)).
      split; [reflexivity|]. right. now exists (join [nl] (p :: ps)). }
  split; [|split; [exact H|split]].
  - rewrite AssemblerFacts.markdown_lines_eq. apply in_or_app. right.
    now left.
  - destruct H as (a & b & -> & _). now destruct a.
  - reflexivity.
Qed.

(** * Further properties *)

(** ** More on the escaper *)
Module EscaperMore.
Import PyFacts ScanFacts EscaperFacts CliDocs Notions Shapes.

Lemma no_angle_app (a b : str) :
  no_angle (a ++ b) = no_angle a && no_angle b.
Proof. apply forallb_app. Qed.

Lemma escape_text_no_angle (s : str) : no_angle (escape_text s) = true.
Proof.
  induction s as [|c s IH]; [reflexivity|].
  rewrite escape_text_cons, no_angle_app, IH, andb_true_r, escape_text_char.
  destruct (Ascii.eqb c "<") eqn:E1; [reflexivity|].
  destruct (Ascii.eqb c ">") eqn:E2; [reflexivity|].
  simpl. now rewrite E1, E2.
Qed.

Lemma escape_text_id (s : str) : no_angle s = true -> escape_text s = s.
Proof.
  induction s as [|c s IH]; [reflexivity|].
  simpl. intros H. apply andb_true_iff in H as [Hc H].
  apply andb_true_iff in Hc as [H1 H2].
  apply negb_true_iff in H1, H2.
  rewrite escape_text_cons, escape_text_char, H1, H2, (IH H). reflexivity.
Qed.

Lemma even_parts_split (ms : list (str * str)) (tl : str) :
  even_parts (flat_map (fun pm => [fst pm; snd pm]) ms ++ [tl])
  = map fst ms ++ [tl].
Proof.
  induction ms as [|[pre m] ms IH]; [reflexivity|].
  cbn [flat_map app even_parts fst snd map]. now rewrite IH.
Qed.

(** The text parts of the output of the pass are the escaped text parts of
    its input. *)
Lemma text_parts_escape_pass (text : str) :
  text_parts (escape_pass text) = map escape_text (text_parts text).
Proof.
  unfold text_parts at 2. unfold Re.split_code.
  rewrite escape_pass_render. unfold text_parts, Re.split_code.
  unfold Re.finditer at 1 2. rewrite finditer_render by lia.
  fold (Re.finditer Re.match_code text).
  destruct (Re.finditer Re.match_code text) as [ms tl].
  unfold escaped. cbn [fst snd]. rewrite !even_parts_split, map_app, !map_map.
  reflexivity.
Qed.

(** A pattern with an opening bracket in it matches no text without one. *)
Lemma lacks_app (x : ascii) (a b : str) :
  lacks x (a ++ b) = lacks x a && lacks x b.
Proof. apply forallb_app. Qed.

Lemma strip_prefix_app (p s r : str) :
  strip_prefix p s = Some r -> s = p ++ r.
Proof.
  revert s. induction p as [|x p IH]; intros [|y s]; simpl; intros H;
    try discriminate.
  - now injection H as <-.
  - now injection H as <-.
  - destruct (Ascii.eqb x y) eqn:E; [|discriminate].
    apply Ascii.eqb_eq in E as ->. now rewrite (IH _ H).
Qed.

Lemma lacks_tail (x c : ascii) (s : str) :
  lacks x (c :: s) = true -> lacks x s = true.
Proof. simpl. intros H. now apply andb_true_iff in H. Qed.

Lemma match_localhost_lacks (s : str) :
  lacks "<" s = true -> Re.match_localhost s = None.
Proof.
  intros H. unfold Re.match_localhost.
  destruct (strip_prefix _ s) as [r|] eqn:E; [|reflexivity].
  apply strip_prefix_app in E. subst s. rewrite lacks_app in H.
  apply andb_true_iff in H as [H _]. discriminate.
Qed.

Lemma match_https_lacks (s : str) :
  lacks "<" s = true -> Re.match_https s = None.
Proof.
  intros H. unfold Re.match_https.
  destruct (strip_prefix _ s) as [r|] eqn:E; [|reflexivity].
  apply strip_prefix_app in E. subst s. rewrite lacks_app in H.
  apply andb_true_iff in H as [_ H].
  pose proof (span_spec (fun c => negb (Ascii.eqb c "<") && negb (isspace c)) r)
    as Hs.
  destruct (span _ r) as [a b]. destruct Hs as (-> & _ & _).
  destruct a as [|x a]; [reflexivity|]. destruct b as [|c b]; [reflexivity|].
  destruct (Ascii.eqb c "<") eqn:Ec; [|reflexivity].
  rewrite lacks_app in H. apply andb_true_iff in H as [_ H].
  simpl in H. rewrite Ec in H. discriminate.
Qed.

Lemma search_lacks {M : Type} (match_here : str -> option (M * str)) (x : ascii) :
  (forall s, lacks x s = true -> match_here s = None) ->
  forall s, lacks x s = true -> Re.search match_here s = None.
Proof.
  intros Hm s. induction s as [|c s IH]; intros H; cbn [Re.search].
  - now rewrite (Hm [] H).
  - now rewrite (Hm _ H), (IH (lacks_tail _ _ _ H)).
Qed.

Lemma no_angle_lacks (s : str) : no_angle s = true -> lacks "<" s = true.
Proof.
  induction s as [|c s IH]; [reflexivity|]. simpl. intros H.
  apply andb_true_iff in H as [Hc H]. apply andb_true_iff in Hc as [H1 _].
  now rewrite H1, (IH H).
Qed.

Lemma render_id (n : nat) :
  forall s : str,
    no_angle s = true -> render (Re.finditer_fuel Re.match_code n s) = s.
Proof.
  induction n as [|n IH]; intros s H; cbn [Re.finditer_fuel].
  - unfold render. cbn [fst snd map concat app]. now apply escape_text_id.
  - destruct (Re.search Re.match_code s) as [[[pre m] rest]|] eqn:Es.
    + destruct (search_code_inv _ _ _ _ Es) as (_ & body & _ & Em & ->).
      rewrite !no_angle_app in H. apply andb_true_iff in H as [Hp H].
      apply andb_true_iff in H as [_ Hr]. specialize (IH rest Hr).
      destruct (Re.finditer_fuel Re.match_code n rest) as [ms tl].
      unfold render in *. cbn [fst snd map concat] in *.
      rewrite (escape_text_id _ Hp), <- !app_assoc. f_equal. f_equal.
      exact IH.
    + unfold render. cbn [fst snd map concat app]. now apply escape_text_id.
Qed.

End EscaperMore.

Import CliDocs Notions Shapes Examples.

(** X1.  In the output of the escaper no angle bracket is left outside the
    inline code spans. *)
Theorem escape_html_tags_leaves_no_bare_bracket (text : str) :
  Forall (fun part => no_angle part = true)
         (text_parts (escape_html_tags text)).
Proof.
  unfold escape_html_tags. rewrite EscaperMore.text_parts_escape_pass.
  apply Forall_forall. intros part H. apply in_map_iff in H as (p & <- & _).
  apply EscaperMore.escape_text_no_angle.
Qed.

(** X2.  A text without angle brackets is returned as it is. *)
Theorem escape_html_tags_without_brackets (text : str) :
  no_angle text = true -> escape_html_tags text = text.
Proof.
  intros H. pose proof (EscaperMore.no_angle_lacks _ H) as Hl.
  unfold escape_html_tags, wrap_https, wrap_localhost.
  rewrite (EscaperFacts.sub_none Re.match_localhost _ text
             (EscaperMore.search_lacks _ "<" EscaperMore.match_localhost_lacks
                _ Hl)).
  rewrite (EscaperFacts.sub_none Re.match_https _ text
             (EscaperMore.search_lacks _ "<" EscaperMore.match_https_lacks
                _ Hl)).
  rewrite EscaperFacts.escape_pass_render. now apply EscaperMore.render_id.
Qed.

Lemma escape_html_tags_without_brackets_witness :
  escape_html_tags (L "use `--app-dir` & a ` alone")
  = L "use `--app-dir` & a ` alone".
Proof.
  apply (escape_html_tags_without_brackets (L "use `--app-dir` & a ` alone")).
  reflexivity.
Defined.

Module EscaperUrl.
Import PyFacts ScanFacts EscaperFacts EscaperMore CliDocs Notions Shapes.

Lemma lacks_render (n : nat) :
  forall s : str,
    Forall (fun span => lacks "<" span = true)
           (map snd (fst (Re.finditer_fuel Re.match_code n s))) ->
    lacks "<" (render (Re.finditer_fuel Re.match_code n s)) = true.
Proof.
  induction n as [|n IH]; intros s; cbn [Re.finditer_fuel].
  - intros _. unfold render. cbn [fst snd map concat app].
    apply no_angle_lacks, escape_text_no_angle.
  - destruct (Re.search Re.match_code s) as [[[pre m] rest]|] eqn:Es.
    + specialize (IH rest).
      destruct (Re.finditer_fuel Re.match_code n rest) as [ms tl].
      unfold render in *. cbn [fst snd map concat] in *.
      intros H. apply Forall_cons_iff in H as [Hm H].
      rewrite <- !app_assoc, lacks_app, lacks_app, (IH H), Hm.
      now rewrite (no_angle_lacks _ (escape_text_no_angle pre)).
    + intros _. unfold render. cbn [fst snd map concat app].
      apply no_angle_lacks, escape_text_no_angle.
Qed.

Lemma search_here {M : Type} (match_here : str -> option (M * str))
  (s : str) (m : M) (rest : str) :
  match_here s = Some (m, rest) -> Re.search match_here s = Some ([], m, rest).
Proof. intros H. destruct s; cbn [Re.search]; now rewrite H. Qed.

Lemma code_spans_finditer (s : str) :
  code_spans s = map snd (fst (Re.finditer Re.match_code s)).
Proof.
  unfold code_spans, Re.split_code.
  destruct (Re.finditer Re.match_code s) as [ms tl].
  apply odd_parts_split.
Qed.

End EscaperUrl.

(** X3.  When neither URL pattern matches a text and its inline code spans
    have no opening angle bracket, a second pass of the escaper changes
    nothing. *)
Theorem escape_html_tags_twice_without_url (text : str) :
  Re.search Re.match_localhost text = None ->
  Re.search Re.match_https text = None ->
  Forall (fun span => lacks "<" span = true) (code_spans text) ->
  escape_html_tags (escape_html_tags text) = escape_html_tags text.
Proof.
  intros H1 H2 Hs.
  assert (E : escape_html_tags text = escape_pass text).
  { unfold escape_html_tags, wrap_https, wrap_localhost.
    now rewrite (EscaperFacts.sub_none _ _ _ H1),
      (EscaperFacts.sub_none _ _ _ H2). }
  assert (Hl : lacks "<" (escape_html_tags text) = true).
  { rewrite E, EscaperFacts.escape_pass_render. unfold Re.finditer.
    apply EscaperUrl.lacks_render. fold (Re.finditer Re.match_code text).
    now rewrite <- EscaperUrl.code_spans_finditer. }
  unfold escape_html_tags at 1. unfold wrap_https, wrap_localhost.
  rewrite (EscaperFacts.sub_none Re.match_localhost _ _
             (EscaperMore.search_lacks _ "<" EscaperMore.match_localhost_lacks
                _ Hl)).
  rewrite (EscaperFacts.sub_none Re.match_https _ _
             (EscaperMore.search_lacks _ "<" EscaperMore.match_https_lacks
                _ Hl)).
  rewrite E. apply EscaperFacts.escape_pass_idem.
Qed.

Lemma escape_html_tags_twice_without_url_witness :
  escape_html_tags (escape_html_tags (L "list <items> of `a > b` & more"))
  = escape_html_tags (L "list <items> of `a > b` & more").
Proof.
  apply (escape_html_tags_twice_without_url
           (L "list <items> of `a > b` & more")).
  - reflexivity.
  - reflexivity.
  - vm_compute. repeat constructor.
Defined.

(** X4.  A bare localhost URL with a placeholder, alone in the text, comes
    back as one inline code span, its brackets kept.  The placeholder is any
    non-empty name without angle bracket or backtick. *)
Theorem escape_html_tags_wraps_localhost_url (g : str) :
  g <> [] ->
  lacks "<" g = true -> lacks ">" g = true -> lacks "`" g = true ->
  escape_html_tags (L "http://localhost:<" ++ g ++ L ">")
  = L "`http://localhost:<" ++ g ++ L ">`".
Proof.
  intros Hg Hlt Hgt Hbt.
  assert (W : wrap_localhost (L "http://localhost:<" ++ g ++ L ">")
              = L "`http://localhost:<" ++ g ++ L ">`").
  { unfold wrap_localhost, Re.sub.
    rewrite (ScanFacts.finditer_eq _ ScanFacts.match_localhost_consumes).
    assert (S0 : Re.search Re.match_localhost
                   (L "http://localhost:<" ++ g ++ L ">")
                 = Some ([], g, [])).
    { destruct g as [|c g']; [contradiction|].
      apply EscaperUrl.search_here. unfold Re.match_localhost.
      change (strip_prefix (L "http://localhost:<")
                (L "http://localhost:<" ++ (c :: g') ++ L ">"))
        with (Some ((c :: g') ++ [">"%char])).
      unfold Re.bracketed.
      rewrite (PyFacts.span_app (fun c => negb (Ascii.eqb c ">")) (c :: g')
                 ">" [] Hgt eq_refl).
      reflexivity. }
    rewrite S0. unfold Re.finditer. cbn [List.length Re.finditer_fuel].
    cbn [map concat fst snd]. now rewrite !app_nil_r. }
  assert (T : lacks "<" (g ++ L ">`") = true).
  { rewrite EscaperMore.lacks_app, Hlt. reflexivity. }
  assert (H2 : Re.search Re.match_https (L "`http://localhost:<" ++ g ++ L ">`")
               = None).
  { pose proof (EscaperMore.search_lacks _ "<" EscaperMore.match_https_lacks
                  _ T) as Hs.
    cbn [L list_ascii_of_string app].
    cbn [L list_ascii_of_string app] in Hs.
    repeat (cbn [Re.search];
            match goal with
            | |- context [Re.match_https (?c :: ?s)] =>
                change (Re.match_https (c :: s)) with (@None ((str * str) * str))
            end).
    now rewrite Hs. }
  unfold escape_html_tags. rewrite W. unfold wrap_https.
  rewrite (EscaperFacts.sub_none _ _ _ H2).
  rewrite EscaperFacts.escape_pass_render.
  rewrite (ScanFacts.finditer_eq _ ScanFacts.match_code_consumes).
  assert (Hb : no_backtick (L "http://localhost:<" ++ g ++ L ">") = true).
  { unfold no_backtick. rewrite !forallb_app. unfold lacks in Hbt.
    now rewrite Hbt. }
  pose proof (EscaperFacts.search_code_found [] _ [] eq_refl Hb) as Sc.
  cbn [app] in Sc.
  replace (L "`http://localhost:<" ++ g ++ L ">`")
    with ("`"%char :: (L "http://localhost:<" ++ g ++ L ">") ++ ["`"%char])
    by (cbn [L list_ascii_of_string app]; now rewrite <- !app_assoc).
  rewrite Sc. unfold Re.finditer. cbn [List.length Re.finditer_fuel].
  unfold render. cbn [fst snd map concat app]. now rewrite !app_nil_r.
Qed.

Lemma escape_html_tags_wraps_localhost_url_witness :
  escape_html_tags (L "http://localhost:<" ++ L "server port" ++ L ">")
  = L "`http://localhost:<" ++ L "server port" ++ L ">`".
Proof.
  apply (escape_html_tags_wraps_localhost_url (L "server port"));
    [discriminate | reflexivity | reflexivity | reflexivity].
Defined.

(** ** The usage line *)
Module UsageFacts.
Import PyFacts ScanFacts CliDocs Notions Shapes.

Section SubEquations.
Context {M : Type}.
Variable match_here : str -> option (M * str).
Variable repl : M -> str.
Hypothesis consumes :
  forall s m rest,
    match_here s = Some (m, rest) -> List.length rest < List.length s.

Lemma sub_here (s : str) (m : M) (rest : str) :
  match_here s = Some (m, rest) ->
  Re.sub match_here repl s = repl m ++ Re.sub match_here repl rest.
Proof.
  intros H. unfold Re.sub. rewrite (finditer_eq _ consumes s).
  rewrite (EscaperUrl.search_here _ _ _ _ H).
  destruct (Re.finditer match_here rest) as [ms tl].
  cbn [map concat fst snd app]. now rewrite <- app_assoc.
Qed.

Lemma sub_skip (c : ascii) (s : str) :
  match_here (c :: s) = None ->
  Re.sub match_here repl (c :: s) = c :: Re.sub match_here repl s.
Proof.
  intros H. unfold Re.sub.
  rewrite (finditer_eq _ consumes (c :: s)), (finditer_eq _ consumes s).
  cbn [Re.search]. rewrite H.
  destruct (Re.search match_here s) as [[[p m] r]|]; [|reflexivity].
  destruct (Re.finditer match_here r) as [ms tl]. reflexivity.
Qed.
End SubEquations.

Lemma clean_here (rest : str) :
  clean_usage_line (usage_cli ++ rest)
  = usage_cocoindex ++ clean_usage_line rest.
Proof.
  unfold clean_usage_line, Re.replace.
  exact (sub_here (Re.match_literal (L "Usage: cli "))
           (fun _ => L "Usage: cocoindex ")
           (match_literal_consumes (L "Usage: cli "))
           (usage_cli ++ rest) tt rest eq_refl).
Qed.

Lemma clean_skip (c : ascii) (s : str) :
  strip_prefix usage_cli (c :: s) = None ->
  clean_usage_line (c :: s) = c :: clean_usage_line s.
Proof.
  intros H. unfold clean_usage_line, Re.replace.
  apply (sub_skip (Re.match_literal (L "Usage: cli "))
           (fun _ => L "Usage: cocoindex ")
           (match_literal_consumes (L "Usage: cli "))).
  unfold Re.match_literal. fold usage_cli.
  change usage_cli with ("U"%char :: L "sage: cli ") in *. now rewrite H.
Qed.

Lemma clean_nil : clean_usage_line [] = [].
Proof. reflexivity. Qed.

(** The three cases of a text. *)
Lemma clean_cases (s : str) :
  (exists rest, s = usage_cli ++ rest)
  \/ s = []
  \/ (exists c s', s = c :: s' /\ strip_prefix usage_cli s = None).
Proof.
  destruct (strip_prefix usage_cli s) as [rest|] eqn:E.
  - left. exists rest. now apply EscaperMore.strip_prefix_app.
  - destruct s as [|c s']; [now right; left|]. right; right. now exists c, s'.
Qed.

(** A text that does not start with a literal without capital U still does
    not once it is cleaned. *)
Lemma strip_prefix_clean (q : str) :
  q <> [] -> lacks "U" q = true ->
  forall s, strip_prefix q s = None ->
            strip_prefix q (clean_usage_line s) = None.
Proof.
  induction q as [|x q IH]; [contradiction|]. intros _ Hq s Hs.
  cbn [lacks forallb] in Hq. apply andb_true_iff in Hq as [Hx Hq].
  apply negb_true_iff in Hx.
  destruct (clean_cases s) as [[rest ->]|[->|(c & s' & -> & Hn)]].
  - rewrite clean_here. cbn [usage_cocoindex L list_ascii_of_string app].
    cbn [strip_prefix]. now rewrite Hx.
  - reflexivity.
  - rewrite (clean_skip _ _ Hn). cbn [strip_prefix] in *.
    destruct (Ascii.eqb x c); [|reflexivity].
    destruct q as [|y q]; [discriminate|].
    apply IH; [discriminate|exact Hq|exact Hs].
Qed.

End UsageFacts.

(** X5.  A usage line that starts with the name of the entry point gets the
    name of the product instead; the text after it, when the literal does not
    occur in it again, stays as it is. *)
Theorem clean_usage_line_renames_cli (rest : str) :
  Re.search (Re.match_literal usage_cli) rest = None ->
  clean_usage_line (usage_cli ++ rest) = usage_cocoindex ++ rest.
Proof.
  intros H. rewrite UsageFacts.clean_here. f_equal.
  unfold clean_usage_line, Re.replace. now apply EscaperFacts.sub_none.
Qed.

Lemma clean_usage_line_renames_cli_witness :
  clean_usage_line (usage_cli ++ L "update [OPTIONS] APP_FLOW_SPECIFIER")
  = usage_cocoindex ++ L "update [OPTIONS] APP_FLOW_SPECIFIER".
Proof.
  apply (clean_usage_line_renames_cli
           (L "update [OPTIONS] APP_FLOW_SPECIFIER")).
  reflexivity.
Defined.

(** X6.  Cleaning a usage line twice is cleaning it once: the cleaned line
    has no occurrence of the literal left. *)
Theorem clean_usage_line_idempotent (usage : str) :
  clean_usage_line (clean_usage_line usage) = clean_usage_line usage.
Proof.
  assert (H : forall n s, List.length s <= n ->
                clean_usage_line (clean_usage_line s) = clean_usage_line s).
  { induction n as [|n IH]; intros s Hn.
    - destruct s; [reflexivity|simpl in Hn; lia].
    - destruct (UsageFacts.clean_cases s)
        as [[rest ->]|[->|(c & s' & -> & Hs)]].
      + rewrite UsageFacts.clean_here.
        assert (Hr : List.length rest <= n).
        { rewrite length_app in Hn. simpl in Hn. lia. }
        cbn [usage_cocoindex L list_ascii_of_string app].
        repeat (rewrite UsageFacts.clean_skip by reflexivity).
        now rewrite (IH rest Hr).
      + reflexivity.
      + rewrite (UsageFacts.clean_skip _ _ Hs).
        assert (Hs' : strip_prefix usage_cli (c :: clean_usage_line s') = None).
        { change usage_cli with ("U"%char :: L "sage: cli ") in *.
          cbn [strip_prefix] in *.
          destruct (Ascii.eqb "U" c); [|reflexivity].
          apply UsageFacts.strip_prefix_clean;
            [discriminate|reflexivity|exact Hs]. }
        rewrite (UsageFacts.clean_skip _ _ Hs'). f_equal. apply IH.
        simpl in Hn. lia. }
  exact (H (List.length usage) usage (le_n _)).
Qed.

(** ** The loops over the lines *)
Module LineFacts.
Import PyFacts CliDocs Notions Shapes.

Lemma split_nonempty (sep : ascii) (s : str) : split sep s <> [].
Proof.
  destruct s as [|c s]; simpl; [discriminate|].
  destruct (Ascii.eqb c sep); [discriminate|].
  destruct (split sep s); discriminate.
Qed.

Lemma split_app_sep (sep : ascii) (a c : str) :
  split sep (a ++ sep :: c) = split sep a ++ split sep c.
Proof.
  induction a as [|x a IH]; cbn [app split].
  - now rewrite Ascii.eqb_refl.
  - destruct (Ascii.eqb x sep); [now rewrite IH|]. rewrite IH.
    pose proof (split_nonempty sep a) as Hn.
    destruct (split sep a) as [|l ls]; [contradiction|reflexivity].
Qed.

Lemma split_lacks (sep : ascii) (s : str) :
  lacks sep s = true -> split sep s = [s].
Proof.
  induction s as [|c s IH]; [reflexivity|]. simpl. intros H.
  apply andb_true_iff in H as [Hc H]. apply negb_true_iff in Hc.
  now rewrite Hc, (IH H).
Qed.

Lemma lstrip_last (l : str) (x : ascii) :
  isspace x = false -> exists u, lstrip (l ++ [x]) = u ++ [x].
Proof.
  intros Hx. induction l as [|c l IH]; cbn [app lstrip].
  - rewrite Hx. now exists [].
  - destruct (isspace c); [exact IH|]. now exists (c :: l).
Qed.

(** Stripping keeps a first character that is no white space. *)
Lemma strip_head (x : ascii) (s : str) :
  isspace x = false -> exists t, strip (x :: s) = x :: t.
Proof.
  intros Hx. unfold strip, rstrip. cbn [lstrip]. rewrite Hx. cbn [rev].
  destruct (lstrip_last (rev s) x Hx) as [u ->]. rewrite rev_app_distr.
  now exists (rev u).
Qed.

(** The first loop of [format_options_section] stops at the header of the
    commands. *)
Lemma find_headers_commands_first (pre : list str) (c : str) (post : list str) :
  Forall (fun line => strip line <> L "Options:") pre ->
  strip c = L "Commands:" ->
  forall i, fst (find_headers i (pre ++ c :: post) None) = None.
Proof.
  intros Hp Hc. induction Hp as [|line pre Hl _ IH]; intros i;
    cbn [app find_headers].
  - now rewrite Hc.
  - destruct (str_eqb (strip line) (L "Options:")) eqn:E.
    + apply str_eqb_eq in E. contradiction.
    + destruct (str_eqb (strip line) (L "Commands:")); [reflexivity|apply IH].
Qed.

(** One round of the loop adds a row exactly at an option line. *)
Lemma parse_line_rows (st : parse_state) (line : str) :
  List.length (save_option (parse_line st line))
  = List.length (save_option st) + (if is_option_line line then 1 else 0).
Proof.
  unfold parse_line, is_option_line, blank.
  destruct (negb (truthy (strip line))) eqn:Eb; cbn [negb andb]; [lia|].
  destruct (startswith (L "  -") line && negb (startswith (L "   ") line)).
  - destruct (Re.search Re.match_spaces2 (skipn 2 line)) as [[[a m] b]|];
      unfold save_option at 1;
      cbn [current_option formatted_options current_description];
      rewrite length_app; simpl; lia.
  - destruct (current_option st) as [o|] eqn:Ec; [|lia].
    destruct (truthy (strip line)); [|lia].
    unfold save_option.
    cbn [current_option formatted_options current_description].
    rewrite Ec, !length_app. simpl. lia.
Qed.

Lemma parse_line_blank (st : parse_state) (line : str) :
  blank line = true -> parse_line st line = st.
Proof. unfold parse_line, blank. now intros ->. Qed.

End LineFacts.

(** X7.  When the header of the commands comes before any header of the
    options, the options table is empty, whatever follows: the first loop
    stops there. *)
Theorem options_after_commands_are_ignored
  (help_text : str) (pre : list str) (c : str) (post : list str) :
  split nl help_text = pre ++ c :: post ->
  Forall (fun line => strip line <> L "Options:") pre ->
  strip c = L "Commands:" ->
  format_options_section help_text = [].
Proof.
  intros Hs Hp Hc. unfold format_options_section. rewrite Hs.
  pose proof (LineFacts.find_headers_commands_first pre c post Hp Hc 0) as E.
  destruct (find_headers 0 (pre ++ c :: post) None) as [o k].
  simpl in E. now rewrite E.
Qed.

Lemma options_after_commands_are_ignored_witness :
  format_options_section
    (join [nl] [L "Usage: cli"; L "Commands:"; L "  run  Run it";
                L "Options:"; L "  -v  Verbose"]) = [].
Proof.
  apply (options_after_commands_are_ignored _
           [L "Usage: cli"] (L "Commands:")
           [L "  run  Run it"; L "Options:"; L "  -v  Verbose"]).
  - reflexivity.
  - repeat constructor. discriminate.
  - reflexivity.
Defined.

(** X8.  The loop over the lines of the options makes one row for each line
    that opens an option, and none for the other lines. *)
Theorem parse_options_one_row_per_option (options_lines : list str) :
  List.length (parse_options options_lines)
  = List.length (filter is_option_line options_lines).
Proof.
  unfold parse_options.
  set (st0 := {| current_option := None; current_description := [];
                 formatted_options := [] |}).
  change (List.length (filter is_option_line options_lines))
    with (List.length (save_option st0)
          + List.length (filter is_option_line options_lines)).
  generalize st0.
  induction options_lines as [|line lines IH]; intros st; cbn [fold_left filter].
  - simpl. lia.
  - rewrite IH, LineFacts.parse_line_rows.
    destruct (is_option_line line); simpl; lia.
Qed.

(** X9.  Blank lines between the lines of the options change nothing. *)
Theorem parse_options_skips_blank_lines (options_lines : list str) :
  parse_options (filter (fun line => negb (blank line)) options_lines)
  = parse_options options_lines.
Proof.
  unfold parse_options. f_equal.
  generalize ({| current_option := None; current_description := [];
                 formatted_options := [] |}).
  induction options_lines as [|line lines IH]; intros st; [reflexivity|].
  cbn [filter fold_left].
  destruct (blank line) eqn:E; cbn [negb fold_left].
  - now rewrite (LineFacts.parse_line_blank _ _ E).
  - apply IH.
Qed.

(** X10.  An options table that is not empty is the two header lines and
    then the rows, each one the option between backticks and a description
    in which no angle bracket is left outside inline code, with a line feed
    after every line. *)
Theorem options_table_shape (help_text : str) :
  format_options_section help_text = []
  \/ exists rows : list str,
       rows <> []
       /\ format_options_section help_text
          = options_header ++ [nl] ++ join [nl] rows ++ [nl]
       /\ Forall (fun row =>
                    exists o d : str,
                      row = L "| `" ++ o ++ L "` | " ++ d ++ L " |"
                      /\ Forall (fun part => no_angle part = true)
                                (text_parts d)) rows.
Proof.
  unfold format_options_section.
  destruct (find_headers 0 (split nl help_text) None) as [[start|] k];
    [|now left].
  set (options_lines := skipn _ _).
  pose proof (AssemblerFacts.parse_options_rows options_lines) as H.
  destruct (parse_options options_lines) as [|row rows]; [now left|].
  right. exists (row :: rows). split; [discriminate|]. split.
  - unfold options_header. now rewrite <- !app_assoc.
  - revert H. apply Forall_impl. intros r (o & ds & ->). unfold option_row.
    exists o, (escape_html_tags (strip (join (L " ") ds))).
    split; [reflexivity|]. unfold escape_html_tags.
    rewrite EscaperMore.text_parts_escape_pass.
    apply Forall_forall. intros part Hp. apply in_map_iff in Hp as (p & <- & _).
    apply EscaperMore.escape_text_no_angle.
Qed.

(** X11.  An option line without a run of two white spaces after its flags
    gives a row with an empty description. *)
Theorem option_without_description (flags : str) :
  lacks nl flags = true ->
  Re.search Re.match_spaces2 ("-"%char :: flags) = None ->
  format_options_section (L "Options:" ++ nl :: L "  -" ++ flags)
  = options_header ++ [nl]
      ++ (L "| `" ++ strip ("-"%char :: flags) ++ L "` |  |") ++ [nl].
Proof.
  intros Hn Hs. unfold format_options_section.
  rewrite LineFacts.split_app_sep.
  assert (Hl : lacks nl (L "  -" ++ flags) = true).
  { rewrite EscaperMore.lacks_app, Hn. reflexivity. }
  rewrite (LineFacts.split_lacks _ _ Hl).
  destruct (LineFacts.strip_head "-" flags eq_refl) as [t Ht].
  assert (Hstrip : strip (L "  -" ++ flags) = "-"%char :: t).
  { rewrite <- Ht. reflexivity. }
  change (split nl (L "Options:")) with [L "Options:"].
  cbn [app find_headers]. change (strip (L "Options:")) with (L "Options:").
  change (str_eqb (L "Options:") (L "Options:")) with true. cbv iota.
  rewrite Hstrip.
  change (str_eqb ("-"%char :: t) (L "Options:")) with false.
  change (str_eqb ("-"%char :: t) (L "Commands:")) with false.
  cbv iota. cbn [List.length Nat.add firstn skipn].
  unfold parse_options. cbn [fold_left]. unfold parse_line.
  rewrite Hstrip. cbn [truthy negb].
  change (startswith (L "  -") (L "  -" ++ flags)) with true.
  change (startswith (L "   ") (L "  -" ++ flags)) with false.
  cbn [negb andb]. change (skipn 2 (L "  -" ++ flags)) with ("-"%char :: flags).
  rewrite Hs. unfold save_option.
  cbn [current_option current_description formatted_options app].
  change (option_row (strip ("-"%char :: flags)) [])
    with (L "| `" ++ strip ("-"%char :: flags) ++ L "` | " ++ L " |").
  cbn [join]. unfold options_header. now rewrite <- !app_assoc.
Qed.

Lemma option_without_description_witness :
  format_options_section (L "Options:" ++ nl :: L "  -" ++ L "-help ")
  = options_header ++ [nl] ++ L "| `--help` |  |" ++ [nl].
Proof.
  apply (option_without_description (L "-help ")); reflexivity.
Defined.

(** X12.  A line of the command list whose name goes on with a character
    that is neither a word character nor white space, as a dash, gives no
    row. *)
Theorem command_row_drops_dashed_names (w : str) (c : ascii) (rest : str) :
  forallb isword w = true -> isword c = false -> isspace c = false ->
  command_row (L "  " ++ w ++ c :: rest) = [].
Proof.
  intros Hw Hc Hs. unfold command_row.
  destruct (negb (truthy (strip (L "  " ++ w ++ c :: rest)))); [reflexivity|].
  unfold Re.match_command.
  change (strip_prefix (L "  ") (L "  " ++ w ++ c :: rest))
    with (Some (w ++ c :: rest)).
  cbv beta iota. rewrite (PyFacts.span_app isword w c rest Hw Hc).
  destruct w as [|x w]; [reflexivity|].
  cbn [span]. now rewrite Hs.
Qed.

Lemma command_row_drops_dashed_names_witness :
  command_row (L "  " ++ L "fetch" ++ "-"%char :: L "all  Fetch everything")
  = [].
Proof.
  apply (command_row_drops_dashed_names (L "fetch") "-"
           (L "all  Fetch everything")); reflexivity.
Defined.

(** X13.  A help text without a line that starts with the usage prefix has
    an empty description. *)
Theorem extract_description_needs_usage (help_text : str) :
  Forall (fun line => startswith (L "Usage:") line = false)
         (split nl help_text) ->
  extract_description help_text = [].
Proof.
  intros H. unfold extract_description.
  assert (E : description_lines false (split nl help_text) = []).
  { induction H as [|line lines Hl _ IH]; [reflexivity|].
    cbn [description_lines]. rewrite Hl.
    destruct (str_eqb (strip line) (L "Options:")
              || str_eqb (strip line) (L "Commands:")); [reflexivity|].
    cbn [andb]. exact IH. }
  rewrite E. reflexivity.
Qed.

Lemma extract_description_needs_usage_witness :
  extract_description (join [nl] [L "  Does the foo thing."; L "Options:"])
  = [].
Proof.
  apply (extract_description_needs_usage
           (join [nl] [L "  Does the foo thing."; L "Options:"])).
  vm_compute. repeat constructor.
Defined.

(** X14.  The description does not depend on what follows the first header
    line of the options or of the commands. *)
Theorem extract_description_stops_at_header (before header after : str) :
  lacks nl header = true ->
  strip header = L "Options:" \/ strip header = L "Commands:" ->
  extract_description (before ++ nl :: header ++ nl :: after)
  = extract_description (before ++ nl :: header).
Proof.
  intros Hn Hh. unfold extract_description. f_equal. f_equal.
  rewrite !LineFacts.split_app_sep, (LineFacts.split_lacks _ _ Hn).
  assert (Hb : str_eqb (strip header) (L "Options:")
               || str_eqb (strip header) (L "Commands:") = true).
  { destruct Hh as [-> | ->]; reflexivity. }
  assert (Hu : startswith (L "Usage:") header = false).
  { destruct header as [|c header]; [reflexivity|].
    destruct (Ascii.eqb "U" c) eqn:Ec.
    - apply Ascii.eqb_eq in Ec. subst c.
      destruct (LineFacts.strip_head "U" header eq_refl) as [t Ht].
      rewrite Ht in Hh. destruct Hh; discriminate.
    - cbn [L list_ascii_of_string startswith]. now rewrite Ec. }
  generalize false. generalize (split nl after).
  induction (split nl before) as [|line lines IH]; intros post b;
    cbn [app description_lines].
  - now rewrite Hu, Hb.
  - destruct (startswith (L "Usage:") line); [apply IH|].
    destruct (str_eqb (strip line) (L "Options:")
              || str_eqb (strip line) (L "Commands:")); [reflexivity|].
    destruct (b && truthy (strip line)); [f_equal|]; apply IH.
Qed.

Lemma extract_description_stops_at_header_witness :
  extract_description
    (L "Usage: cli drop" ++ nl :: L "Commands:" ++ nl :: L "Drop it.")
  = extract_description (L "Usage: cli drop" ++ nl :: L "Commands:").
Proof.
  apply (extract_description_stops_at_header
           (L "Usage: cli drop") (L "Commands:") (L "Drop it."));
    [reflexivity | now right].
Defined.

(** ** More on the assembler *)
Module PageFacts.
Import PyFacts SortFacts AssemblerFacts CliDocs Notions Shapes.

(** Inserting a record puts it before the records of its name. *)
Lemma named_insert (n : str) (doc : CommandHelp) (l : list CommandHelp) :
  named n (insert_by_name doc l) = named n (doc :: l).
Proof.
  induction l as [|e l IH]; [reflexivity|].
  cbn [insert_by_name].
  destruct (str_ltb (name e) (name doc)) eqn:E; [|reflexivity].
  unfold named in *. cbn [filter] in *. rewrite IH.
  destruct (str_eqb (name doc) n) eqn:Ed; [|reflexivity].
  destruct (str_eqb (name e) n) eqn:Ee; [|reflexivity].
  apply str_eqb_eq in Ed, Ee. rewrite Ed, Ee in E.
  now rewrite str_le_refl in E.
Qed.

Lemma no_root_all_subcommands (docs : list CommandHelp) :
  forallb (fun doc => negb (is_root doc)) docs = true ->
  last_root docs = None /\ subcommands_of docs = docs.
Proof.
  induction docs as [|d docs IH]; [now split|].
  cbn [forallb]. intros H. apply andb_true_iff in H as [Hd H].
  destruct (IH H) as [H1 H2]. unfold subcommands_of in *.
  cbn [last_root filter]. rewrite H1, Hd, H2.
  apply negb_true_iff in Hd. now rewrite Hd.
Qed.

(** The lines of the page end with an empty line after another line. *)
Lemma markdown_lines_end (docs : list CommandHelp) :
  exists (init : list str) (l : str), markdown_lines docs = init ++ [l; []].
Proof.
  rewrite markdown_lines_eq.
  set (pre := match last_root docs with
              | Some m => main_lines m
              | None => []
              end).
  destruct (sorted_by_name (subcommands_of docs)) as [|d subs] eqn:E.
  - exists pre, details_heading. reflexivity.
  - assert (Hne : d :: subs <> []) by discriminate.
    destruct (exists_last Hne) as (subs' & a & ->).
    rewrite flat_map_app. cbn [flat_map]. rewrite app_nil_r.
    unfold subcommand_lines at 2.
    eexists. exists (L "---"). rewrite !app_assoc. reflexivity.
Qed.

End PageFacts.

(** X15.  Records with the same command name keep the order of the input in
    the page: the sort is stable. *)
Theorem subsections_of_one_name_keep_order (n : str) (docs : list CommandHelp) :
  named n (sorted_by_name (subcommands_of docs)) = named n (subcommands_of docs).
Proof.
  induction (subcommands_of docs) as [|d l IH]; [reflexivity|].
  cbn [sorted_by_name fold_right]. fold (sorted_by_name l).
  rewrite PageFacts.named_insert. unfold named in *. cbn [filter].
  now rewrite IH.
Qed.

(** X16.  Without a record without parent the page has no title, overview,
    usage or tables of the main command: it starts at the heading of the
    command details. *)
Theorem page_without_root (docs : list CommandHelp) :
  forallb (fun doc => negb (is_root doc)) docs = true ->
  generate_command_docs docs
  = join [nl] ([details_heading; []]
               ++ flat_map subcommand_lines (sorted_by_name docs)).
Proof.
  intros H. destruct (PageFacts.no_root_all_subcommands docs H) as [H1 H2].
  unfold generate_command_docs.
  now rewrite AssemblerFacts.markdown_lines_eq, H1, H2.
Qed.

Lemma page_without_root_witness :
  generate_command_docs [sub_update; sub_drop]
  = join [nl] ([details_heading; []]
               ++ flat_map subcommand_lines
                    (sorted_by_name [sub_update; sub_drop])).
Proof.
  apply (page_without_root [sub_update; sub_drop]). reflexivity.
Defined.

(** X17.  The page always ends with a line feed. *)
Theorem page_ends_with_line_feed (docs : list CommandHelp) :
  exists body : str, generate_command_docs docs = body ++ [nl].
Proof.
  unfold generate_command_docs.
  destruct (PageFacts.markdown_lines_end docs) as (init & l & ->).
  rewrite AssemblerFacts.join_app. cbn [join].
  eexists. rewrite app_nil_r, !app_assoc. reflexivity.
Qed.

(** ** The regions of a help text *)
Module RegionFacts.
Import PyFacts LineFacts CliDocs Notions Shapes.

Lemma is_header_false (line : str) :
  is_header line = false ->
  str_eqb (strip line) (L "Options:") = false
  /\ str_eqb (strip line) (L "Commands:") = false.
Proof. unfold is_header. intros H. now apply orb_false_iff in H. Qed.

(** The first loop over lines without header goes through them. *)
Lemma find_headers_skip (mid rest : list str) :
  forallb (fun line => negb (is_header line)) mid = true ->
  forall i acc,
    find_headers i (mid ++ rest) acc
    = find_headers (i + List.length mid) rest acc.
Proof.
  induction mid as [|line mid IH]; intros H i acc; cbn [app List.length].
  - now rewrite Nat.add_0_r.
  - cbn [forallb] in H. apply andb_true_iff in H as [Hl H].
    apply negb_true_iff, is_header_false in Hl as [H1 H2].
    cbn [find_headers]. rewrite H1, H2, (IH H).
    f_equal. lia.
Qed.

(** Before the first header of the commands, it keeps the last header of the
    options. *)
Lemma find_headers_last_options (pre : list str) (opt : str) (rest : list str) :
  Forall (fun line => strip line <> L "Commands:") pre ->
  strip opt = L "Options:" ->
  forall i acc,
    find_headers i (pre ++ opt :: rest) acc
    = find_headers (S (i + List.length pre)) rest (Some (i + List.length pre)).
Proof.
  intros Hp Ho. induction Hp as [|line pre Hl _ IH]; intros i acc;
    cbn [app List.length find_headers].
  - rewrite Ho. change (str_eqb (L "Options:") (L "Options:")) with true.
    cbv iota. now rewrite Nat.add_0_r.
  - destruct (str_eqb (strip line) (L "Options:")).
    + rewrite IH. f_equal; [lia | f_equal; lia].
    + destruct (str_eqb (strip line) (L "Commands:")) eqn:E.
      * apply str_eqb_eq in E. contradiction.
      * rewrite IH. f_equal; [lia | f_equal; lia].
Qed.

Lemma find_commands_first (pre : list str) (cmd : str) (post : list str) :
  Forall (fun line => strip line <> L "Commands:") pre ->
  strip cmd = L "Commands:" ->
  forall i, find_commands i (pre ++ cmd :: post) = Some (i + List.length pre).
Proof.
  intros Hp Hc. induction Hp as [|line pre Hl _ IH]; intros i;
    cbn [app List.length find_commands].
  - rewrite Hc. change (str_eqb (L "Commands:") (L "Commands:")) with true.
    cbv iota. now rewrite Nat.add_0_r.
  - destruct (str_eqb (strip line) (L "Commands:")) eqn:E.
    + apply str_eqb_eq in E. contradiction.
    + rewrite IH. f_equal. lia.
Qed.

(** What a row of the commands table is. *)
Lemma command_row_inv (line row : str) :
  In row (command_row line) ->
  exists command description : str,
    row = L "| `" ++ command ++ L "` | " ++ description ++ L " |"
    /\ command <> [] /\ forallb isword command = true
    /\ List.length description <= 80.
Proof.
  unfold command_row. destruct (negb (truthy (strip line))); [contradiction|].
  destruct (Re.match_command line) as [[command text]|] eqn:E; [|contradiction].
  intros [<-|[]].
  exists command.
  exists (if 80 <? List.length (strip text)
          then firstn 77 (strip text) ++ L "..." else strip text).
  split; [reflexivity|].
  assert (Hc : command <> [] /\ forallb isword command = true).
  { unfold Re.match_command in E.
    destruct (strip_prefix (L "  ") line) as [r|]; [|discriminate].
    pose proof (PyFacts.span_spec isword r) as Hs.
    destruct (span isword r) as [[|x a] r']; [discriminate|].
    destruct Hs as (_ & Ha & _).
    destruct (span isspace r') as [[|w1 [|w2 ws]] [|t1 text']];
      try discriminate.
    - destruct (rev (w1 :: w2 :: ws)) as [|c [|c1 [|c2 l]]]; try discriminate.
      injection E as <- _. split; [discriminate|exact Ha].
    - injection E as <- _. split; [discriminate|exact Ha]. }
  destruct Hc as [Hc1 Hc2]. split; [exact Hc1|]. split; [exact Hc2|].
  destruct (Nat.ltb_spec 80 (List.length (strip text))) as [Hl|Hl]; [|exact Hl].
  rewrite length_app, firstn_length_le by lia. simpl. lia.
Qed.

End RegionFacts.

(** X18.  A commands table that is not empty is the two header lines and
    then the rows, each one a name made of word characters between backticks
    and a description of at most 80 characters. *)
Theorem commands_table_shape (help_text : str) :
  format_commands_section help_text = []
  \/ exists rows : list str,
       rows <> []
       /\ format_commands_section help_text = commands_table rows
       /\ Forall (fun row =>
                    exists command description : str,
                      row = L "| `" ++ command ++ L "` | "
                              ++ description ++ L " |"
                      /\ command <> [] /\ forallb isword command = true
                      /\ List.length description <= 80) rows.
Proof.
  unfold format_commands_section.
  destruct (find_commands 0 (split nl help_text)) as [start|]; [|now left].
  set (commands_lines := skipn _ _).
  assert (H : Forall (fun row => exists line, In row (command_row line))
                     (flat_map command_row commands_lines)).
  { apply Forall_forall. intros row Hr. apply in_flat_map in Hr as (l & _ & Hl).
    now exists l. }
  destruct (flat_map command_row commands_lines) as [|row rows]; [now left|].
  right. exists (row :: rows). split; [discriminate|]. split.
  - unfold commands_table, commands_header. now rewrite <- !app_assoc.
  - revert H. apply Forall_impl. intros r (line & Hr).
    exact (RegionFacts.command_row_inv line r Hr).
Qed.

(** X19.  The options table is made of the lines between the last header of
    the options that comes before any header of the commands and the next
    header of the commands, or the end of the text when there is none. *)
Theorem options_region
  (help_text : str) (pre : list str) (opt : str) (mid tail : list str) :
  split nl help_text = pre ++ opt :: mid ++ tail ->
  Forall (fun line => strip line <> L "Commands:") pre ->
  strip opt = L "Options:" ->
  forallb (fun line => negb (is_header line)) mid = true ->
  tail = [] \/ (exists cmd post, tail = cmd :: post
                                 /\ strip cmd = L "Commands:") ->
  format_options_section help_text = options_table (parse_options mid).
Proof.
  intros Hs Hp Ho Hm Ht. unfold format_options_section. rewrite Hs.
  rewrite (RegionFacts.find_headers_last_options pre opt _ Hp Ho).
  rewrite (RegionFacts.find_headers_skip mid tail Hm).
  cbn [Nat.add].
  assert (Hmid : forall n,
             n = List.length (pre ++ opt :: mid) \/
             (tail = [] /\ n = List.length (pre ++ opt :: mid ++ tail)) ->
             skipn (List.length pre + 1) (firstn n (pre ++ opt :: mid ++ tail))
             = mid).
  { intros n Hn.
    replace (pre ++ opt :: mid ++ tail) with ((pre ++ [opt]) ++ mid ++ tail)
      by (now rewrite <- app_assoc).
    assert (Hl : List.length (pre ++ [opt]) = List.length pre + 1)
      by (rewrite length_app; reflexivity).
    destruct Hn as [-> | [-> ->]].
    - replace (List.length (pre ++ opt :: mid))
        with (List.length (pre ++ [opt]) + List.length mid)
        by (rewrite !length_app; simpl; lia).
      rewrite firstn_app_2, <- Hl, skipn_app, skipn_all, Nat.sub_diag.
      cbn [app skipn]. rewrite firstn_app, firstn_all, Nat.sub_diag.
      cbn [firstn]. now rewrite app_nil_r.
    - rewrite app_nil_r.
      replace (List.length (pre ++ opt :: mid))
        with (List.length ((pre ++ [opt]) ++ mid))
        by (rewrite <- app_assoc; reflexivity).
      rewrite firstn_all, <- Hl, skipn_app, skipn_all, Nat.sub_diag.
      reflexivity. }
  destruct Ht as [-> | (cmd & post & -> & Hc)].
  - cbn [find_headers]. rewrite Hmid.
    + unfold options_table, options_header.
      destruct (parse_options mid); [reflexivity|].
      now rewrite <- !app_assoc.
    + right. split; [reflexivity|]. now rewrite app_nil_r.
  - cbn [find_headers]. rewrite Hc.
    change (str_eqb (L "Commands:") (L "Options:")) with false.
    change (str_eqb (L "Commands:") (L "Commands:")) with true.
    cbv iota.
    replace (List.length pre + List.length mid)
      with (Nat.pred (List.length (pre ++ opt :: mid)))
      by (rewrite length_app; simpl; lia).
    replace (S (Nat.pred (List.length (pre ++ opt :: mid))))
      with (List.length (pre ++ opt :: mid))
      by (rewrite length_app; simpl; lia).
    destruct (List.length (pre ++ opt :: mid)) as [|k] eqn:Ek.
    { rewrite length_app in Ek. simpl in Ek. lia. }
    rewrite <- Ek, Hmid by now left.
    unfold options_table, options_header.
    destruct (parse_options mid); [reflexivity|].
    now rewrite <- !app_assoc.
Qed.

Lemma options_region_witness :
  format_options_section
    (join [nl] [L "Options:"; L "  --old  Gone"; L "Options:";
                L "  -v  Verbose"; L "Commands:"; L "  -x  Not an option"])
  = options_table (parse_options [L "  -v  Verbose"]).
Proof.
  apply (options_region _ [L "Options:"; L "  --old  Gone"] (L "Options:")
           [L "  -v  Verbose"] [L "Commands:"; L "  -x  Not an option"]).
  - reflexivity.
  - repeat constructor; discriminate.
  - reflexivity.
  - reflexivity.
  - right. now exists (L "Commands:"), [L "  -x  Not an option"].
Defined.

(** X20.  The commands table is made of the lines after the first header of
    the commands, to the end of the text. *)
Theorem commands_region
  (help_text : str) (pre : list str) (cmd : str) (post : list str) :
  split nl help_text = pre ++ cmd :: post ->
  Forall (fun line => strip line <> L "Commands:") pre ->
  strip cmd = L "Commands:" ->
  format_commands_section help_text
  = commands_table (flat_map command_row post).
Proof.
  intros Hs Hp Hc. unfold format_commands_section. rewrite Hs.
  rewrite (RegionFacts.find_commands_first pre cmd post Hp Hc). cbn [Nat.add].
  replace (pre ++ cmd :: post) with ((pre ++ [cmd]) ++ post)
    by (now rewrite <- app_assoc).
  replace (List.length pre + 1) with (List.length (pre ++ [cmd]))
    by (rewrite length_app; reflexivity).
  rewrite skipn_app, skipn_all, Nat.sub_diag. cbn [app skipn].
  unfold commands_table, commands_header.
  destruct (flat_map command_row post); [reflexivity|].
  now rewrite <- !app_assoc.
Qed.

Lemma commands_region_witness :
  format_commands_section
    (join [nl] [L "Usage: cli"; L "Commands:"; L "  drop  Drop it";
                L "Commands:"; L "  show  Show it"])
  = commands_table
      (flat_map command_row
         [L "  drop  Drop it"; L "Commands:"; L "  show  Show it"]).
Proof.
  apply (commands_region _ [L "Usage: cli"] (L "Commands:")
           [L "  drop  Drop it"; L "Commands:"; L "  show  Show it"]).
  - reflexivity.
  - repeat constructor. discriminate.
  - reflexivity.
Defined.
